(** * Spyce linear algebra: [src/spyce/vector.py]

    A shallow embedding of the [Vector] and [Matrix] classes.  Python floats
    are idealised as real numbers; what Python raises is kept as an explicit
    exception value, so that a division by a zero norm or an [acos] outside
    its domain is visible in the result type.

    The development has two layers.  The value layer gives each method as a
    function on the numbers held by its operands.  The object layer places the
    operands in a store of Python objects with identity, and runs a method by
    reading its operands from the store and allocating its result there. *)

From Stdlib Require Import Reals Lra Lia List Bool PeanoNat RNsatz.
Import ListNotations.
Open Scope R_scope.

(** ** Exceptions and results *)

Inductive exn : Set :=
| ZeroDivisionError
| ValueError
| TypeError.

Inductive result (A : Type) : Type :=
| Ok (a : A)
| Raise (e : exn).

Arguments Ok {A} a.
Arguments Raise {A} e.

Definition bind {A B : Type} (m : result A) (k : A -> result B) : result B :=
  match m with
  | Ok a => k a
  | Raise e => Raise e
  end.

Notation "x <- m ;; k" := (bind m (fun x => k))
  (at level 61, m at next level, right associativity).
Notation "' pat <- m ;; k" := (bind m (fun x => match x with pat => k end))
  (at level 61, pat pattern, m at next level, right associativity).

(** [[f(x) for x in l]]: elements are evaluated in order and the first
    exception ends the comprehension. *)
Fixpoint mapM {A B : Type} (f : A -> result B) (l : list A) : result (list B) :=
  match l with
  | [] => Ok []
  | x :: l' => y <- f x ;; ys <- mapM f l' ;; Ok (y :: ys)
  end.

(** ** Builtins *)

Module Py.

(** [a / b] on numbers. *)
Definition truediv (a b : R) : result R :=
  if Req_dec_T b 0 then Raise ZeroDivisionError else Ok (a / b).

(** [max(a, b)] and [min(a, b)]: the first argument is kept unless the
    second is strictly better. *)
Definition max (a b : R) : R := if Rlt_dec a b then b else a.
Definition min (a b : R) : R := if Rlt_dec b a then b else a.

(** [max(l)] on an iterable of numbers. *)
Definition max_iter (l : list R) : result R :=
  match l with
  | [] => Raise ValueError
  | x :: l' => Ok (fold_left max l' x)
  end.

(** [a, b, c = l] *)
Definition unpack3 {A : Type} (l : list A) : result (A * A * A) :=
  match l with
  | [a; b; c] => Ok (a, b, c)
  | _ => Raise ValueError
  end.

(** [zip] applied to the rows of its starred argument: the columns, up to
    the length of the shortest row. *)
Fixpoint zip_star {A : Type} (rows : list (list A)) : list (list A) :=
  match rows with
  | [] => []
  | r :: rest =>
      match rest with
      | [] => map (fun a => [a]) r
      | _ :: _ => map (fun p => fst p :: snd p) (combine r (zip_star rest))
      end
  end.

End Py.

Module math.

Definition sqrt (x : R) : result R :=
  if Rlt_dec x 0 then Raise ValueError else Ok (R_sqrt.sqrt x).

Definition acos (x : R) : result R :=
  if Rle_dec (-1) x then
    if Rle_dec x 1 then Ok (Ratan.acos x) else Raise ValueError
  else Raise ValueError.

Definition sin (x : R) : R := Rtrigo_def.sin x.
Definition cos (x : R) : R := Rtrigo_def.cos x.

(** [math.fsum]: the exact sum of the items, rounded once. Over the reals
    the rounding is the identity. *)
Definition fsum (l : list R) : R := fold_right Rplus 0 l.

Definition radians (x : R) : R := x * PI / 180.

End math.

(** ** Vector *)

Module Vector.

(** A [Vector] is a list of numbers; nothing fixes its length but the
    unpacking at the head of each method. *)
Definition t : Type := list R.

Definition dot (u v : t) : result R :=
  '(u1, u2, u3) <- Py.unpack3 u ;;
  '(v1, v2, v3) <- Py.unpack3 v ;;
  Ok (math.fsum [u1*v1; u2*v2; u3*v3]).

Definition norm (u : t) : result R :=
  d <- dot u u ;;
  math.sqrt d.

Definition cross (u v : t) : result t :=
  '(u1, u2, u3) <- Py.unpack3 u ;;
  '(v1, v2, v3) <- Py.unpack3 v ;;
  Ok [u2*v3 - u3*v2; u3*v1 - u1*v3; u1*v2 - u2*v1].

(** The last two lines of [angle]: clamp, then [math.acos]. *)
Definition clamp (r : R) : R := Py.max (-1) (Py.min 1 r).

Definition angle (u v : t) : result R :=
  d <- dot u v ;;
  nu <- norm u ;;
  q <- Py.truediv d nu ;;
  nv <- norm v ;;
  r <- Py.truediv q nv ;;
  let r := clamp r in
  math.acos r.

Definition oriented_angle (u v : t) (normal : option t) : result R :=
  let normal := match normal with
                | None => [0; 0; 1]
                | Some n => n
                end in
  geometric_angle <- angle u v ;;
  w <- cross u v ;;
  d <- dot normal w ;;
  if Rlt_dec d 0 then Ok (- geometric_angle) else Ok geometric_angle.

Definition __mul__ (u : t) (s : R) : result t :=
  '(x, y, z) <- Py.unpack3 u ;;
  Ok [x*s; y*s; z*s].

Definition __div__ (u : t) (s : R) : result t :=
  '(x, y, z) <- Py.unpack3 u ;;
  x' <- Py.truediv x s ;;
  y' <- Py.truediv y s ;;
  z' <- Py.truediv z s ;;
  Ok [x'; y'; z'].

Definition __add__ (u v : t) : result t :=
  '(x, y, z) <- Py.unpack3 u ;;
  '(a, b, c) <- Py.unpack3 v ;;
  Ok [x+a; y+b; z+c].

Definition __iadd__ (u v : t) : result t :=
  '(x, y, z) <- Py.unpack3 u ;;
  '(a, b, c) <- Py.unpack3 v ;;
  Ok [x+a; y+b; z+c].

Definition __sub__ (u v : t) : result t :=
  '(x, y, z) <- Py.unpack3 u ;;
  '(a, b, c) <- Py.unpack3 v ;;
  Ok [x-a; y-b; z-c].

Definition __isub__ (u v : t) : result t :=
  '(x, y, z) <- Py.unpack3 u ;;
  '(a, b, c) <- Py.unpack3 v ;;
  Ok [x-a; y-b; z-c].

Definition __neg__ (u : t) : result t :=
  '(x, y, z) <- Py.unpack3 u ;;
  Ok [-x; -y; -z].

Definition __abs__ (u : t) : result R := Py.max_iter u.

(** The Chebyshev norm that the docstring of [__abs__] names. *)
Definition chebyshev (u : t) : R := fold_right (fun x m => Rmax (Rabs x) m) 0 u.

End Vector.

(** ** Matrix *)

(** What a [Matrix] (a list) may hold: a number, or a row of numbers.  The
    class of a row is kept, because [abs] is defined on a [Vector] and not on
    a plain list or a tuple. *)
Inductive kind : Set :=
| KList
| KTuple
| KVector.

Inductive item : Type :=
| Num (x : R)
| Row (k : kind) (r : list R).

(** What [Matrix.__mul__] takes on its right and returns: an instance of
    [Matrix], or anything else. *)
Inductive object : Type :=
| Mat (rows : list item)
| Itm (i : item).

Module Matrix.

Definition t : Type := list item.

(** The invariant: exactly three rows of exactly three numbers. *)
Definition is_row3 (i : item) : bool :=
  match i with
  | Row _ r => Nat.eqb (length r) 3
  | Num _ => false
  end.

Definition wf (A : t) : bool :=
  Nat.eqb (length A) 3 && forallb is_row3 A.

(** Iterating over an item: a number is not iterable. *)
Definition iter (i : item) : result (list R) :=
  match i with
  | Row _ r => Ok r
  | Num _ => Raise TypeError
  end.

Definition unpack_row (i : item) : result (R * R * R) :=
  r <- iter i ;;
  Py.unpack3 r.

(** [[x-y for a, b in zip(A, B) for x, y in zip(a, b)]]: one comprehension
    with two [for] clauses, hence one list. *)
Fixpoint sub_items (ps : list (item * item)) : result (list item) :=
  match ps with
  | [] => Ok []
  | (a, b) :: ps' =>
      ra <- iter a ;;
      rb <- iter b ;;
      rest <- sub_items ps' ;;
      Ok (map (fun p => Num (fst p - snd p)) (combine ra rb) ++ rest)
  end.

Definition __sub__ (A B : t) : result t := sub_items (combine A B).

Definition abs_item (a : item) : result R :=
  match a with
  | Num x => Ok (Rabs x)
  | Row KVector r => Vector.__abs__ r
  | Row _ _ => Raise TypeError
  end.

Definition __abs__ (A : t) : result R :=
  l <- mapM abs_item A ;;
  Py.max_iter l.

(** The matrix-vector branch of [__mul__]. *)
Definition mul_vector (self : t) (x : item) : result Vector.t :=
  '(r1, r2, r3) <- Py.unpack3 self ;;
  '(a, b, c) <- unpack_row r1 ;;
  '(d, e, f) <- unpack_row r2 ;;
  '(g, h, i) <- unpack_row r3 ;;
  '(x, y, z) <- unpack_row x ;;
  Ok [a*x + b*y + c*z; d*x + e*y + f*z; g*x + h*y + i*z].

Definition __mul__ (self : t) (x : object) : result object :=
  match x with
  | Mat x =>
      rows <- mapM iter x ;;
      let m := map (Row KTuple) (Py.zip_star rows) in
      prod <- mapM (mul_vector m) self ;;
      Ok (Mat (map (Row KVector) prod))
  | Itm x =>
      v <- mul_vector self x ;;
      Ok (Itm (Row KVector v))
  end.

(** [A * B] for two matrices. *)
Definition mul (A B : t) : result t :=
  o <- __mul__ A (Mat B) ;;
  match o with
  | Mat C => Ok C
  | Itm _ => Raise TypeError
  end.

Definition identity : t :=
  [Row KList [1; 0; 0]; Row KList [0; 1; 0]; Row KList [0; 0; 1]].

Definition rotation (angle x y z : R) : result t :=
  let s := math.sin angle in
  let c := math.cos angle in
  d <- math.sqrt (x*x + y*y + z*z) ;;
  x' <- Py.truediv x d ;;
  y' <- Py.truediv y d ;;
  z' <- Py.truediv z d ;;
  let x := x' in
  let y := y' in
  let z := z' in
  Ok [Row KList [x*x*(1-c)+c;   x*y*(1-c)-z*s; x*z*(1-c)+y*s];
      Row KList [y*x*(1-c)+z*s; y*y*(1-c)+c;   y*z*(1-c)-x*s];
      Row KList [z*x*(1-c)-y*s; z*y*(1-c)+x*s; z*z*(1-c)+c]].

Definition from_euler_angles (alpha beta gamma : R) : t :=
  let c1 := math.cos alpha in let s1 := math.sin alpha in
  let c2 := math.cos beta in  let s2 := math.sin beta in
  let c3 := math.cos gamma in let s3 := math.sin gamma in
  [Row KList [c1*c3-c2*s1*s3; -c1*s3-c2*c3*s1; s1*s2];
   Row KList [c3*s1+c1*c2*s3; c1*c2*c3-s1*s3;  -c1*s2];
   Row KList [s2*s3;          c3*s2;           c2]].

Definition rotation_deg (angle x y z : R) : result t :=
  rotation (math.radians angle) x y z.

(** The numbers of a matrix, row by row, whatever the class of its rows:
    what [==] between a matrix of [Vector] rows and one of plain lists
    compares. *)
Definition entries (A : t) : list (list R) :=
  map (fun i => match i with Row _ r => r | Num x => [x] end) A.

End Matrix.


(** ** The object layer: a store of Python objects *)

Module Store.

Definition loc : Set := nat.
Bind Scope nat_scope with loc.

Inductive cls : Set :=
| CList
| CTuple
| CVector
| CMatrix.

(** A number is a value of its own; a list is reached through its
    reference, and two references are the same object when they are equal. *)
Inductive value : Type :=
| VNum (x : R)
| VRef (l : loc).

Record obj : Type := { obj_cls : cls; obj_items : list value }.

(** Objects in allocation order; the reference of an object is its index. *)
Definition heap : Type := list obj.

(** A computation on the store: the store it leaves, and what it returns or
    raises. *)
Definition M (A : Type) : Type := heap -> heap * result A.

Definition ret {A : Type} (a : A) : M A := fun h => (h, Ok a).

Definition lift {A : Type} (r : result A) : M A := fun h => (h, r).

Definition mbind {A B : Type} (m : M A) (k : A -> M B) : M B :=
  fun h =>
    match m h with
    | (h', Ok a) => k a h'
    | (h', Raise e) => (h', Raise e)
    end.

Notation "x <~ m ;; k" := (mbind m (fun x => k))
  (at level 61, m at next level, right associativity).

Fixpoint mmap {A B : Type} (f : A -> M B) (l : list A) : M (list B) :=
  match l with
  | [] => ret []
  | x :: l' => y <~ f x ;; ys <~ mmap f l' ;; ret (y :: ys)
  end.

(** [cls([...])]: a new object, at a reference no object has yet. *)
Definition alloc (c : cls) (items : list value) : M loc :=
  fun h => (h ++ [{| obj_cls := c; obj_items := items |}], Ok (length h)).

(** Reading an object.  A reference is the index of an allocated object; one
    that is not is reported as [TypeError]. *)
Definition load (l : loc) : M obj :=
  fun h =>
    match nth_error h l with
    | Some o => (h, Ok o)
    | None => (h, Raise TypeError)
    end.

(** Replacing the items of an object in place: what the list methods that
    [Vector] inherits and does not override do. *)
Fixpoint update (h : heap) (l : loc) (o : obj) : heap :=
  match h, l with
  | [], _ => []
  | _ :: h', O => o :: h'
  | x :: h', S l' => x :: update h' l' o
  end.

Definition store (l : loc) (o : obj) : M unit :=
  fun h => (update h l o, Ok tt).

(** *** Operands: from objects to the value layer *)

Fixpoint numbers (vs : list value) : result (list R) :=
  match vs with
  | [] => Ok []
  | VNum x :: vs' => xs <- numbers vs' ;; Ok (x :: xs)
  | VRef _ :: _ => Raise TypeError
  end.

(** A [Vector] operand, or any sequence of numbers. *)
Definition read_seq (l : loc) : M (list R) :=
  o <~ load l ;;
  lift (numbers (obj_items o)).

Definition kind_of (c : cls) : result kind :=
  match c with
  | CList => Ok KList
  | CTuple => Ok KTuple
  | CVector => Ok KVector
  | CMatrix => Raise TypeError
  end.

Definition cls_of (k : kind) : cls :=
  match k with
  | KList => CList
  | KTuple => CTuple
  | KVector => CVector
  end.

(** An item of a matrix: a number, or a reference to a row of numbers.
    Anything nested deeper is outside the model and reported as
    [TypeError]. *)
Definition read_item (v : value) : M item :=
  match v with
  | VNum x => ret (Num x)
  | VRef l =>
      o <~ load l ;;
      k <~ lift (kind_of (obj_cls o)) ;;
      r <~ lift (numbers (obj_items o)) ;;
      ret (Row k r)
  end.

Definition read_matrix (l : loc) : M Matrix.t :=
  o <~ load l ;;
  mmap read_item (obj_items o).

(** The right operand of [Matrix.__mul__], with the answer of
    [isinstance(x, Matrix)]. *)
Definition read_object (v : value) : M object :=
  match v with
  | VNum x => ret (Itm (Num x))
  | VRef l =>
      o <~ load l ;;
      match obj_cls o with
      | CMatrix => A <~ mmap read_item (obj_items o) ;; ret (Mat A)
      | _ => i <~ read_item v ;; ret (Itm i)
      end
  end.

(** *** Results: from the value layer to new objects *)

Definition new_seq (c : cls) (xs : list R) : M value :=
  l <~ alloc c (map VNum xs) ;;
  ret (VRef l).

Definition new_item (i : item) : M value :=
  match i with
  | Num x => ret (VNum x)
  | Row k r => new_seq (cls_of k) r
  end.

(** The rows are built first, then the matrix that holds them. *)
Definition new_matrix (A : Matrix.t) : M value :=
  vs <~ mmap new_item A ;;
  l <~ alloc CMatrix vs ;;
  ret (VRef l).

Definition new_object (o : object) : M value :=
  match o with
  | Mat A => new_matrix A
  | Itm i => new_item i
  end.

(** *** The methods on objects

    Each method reads its operands, computes on their numbers as the value
    layer says, and builds its result with the constructor that the source
    calls.  Objects that a method creates and drops before it returns are not
    allocated. *)
Inductive call : Type :=
| Vector_norm (u : loc)
| Vector_dot (u v : loc)
| Vector_cross (u v : loc)
| Vector_angle (u v : loc)
| Vector_oriented_angle (u v : loc) (normal : option loc)
| Vector_mul (u : loc) (s : R)
| Vector_div (u : loc) (s : R)
| Vector_add (u v : loc)
| Vector_iadd (u v : loc)
| Vector_sub (u v : loc)
| Vector_isub (u v : loc)
| Vector_neg (u : loc)
| Vector_abs (u : loc)
| Matrix_sub (A B : loc)
| Matrix_abs (A : loc)
| Matrix_mul (self : loc) (x : value)
| Matrix_identity
| Matrix_rotation (angle x y z : R)
| Matrix_from_euler_angles (alpha beta gamma : R)
| Matrix_rotation_deg (angle x y z : R).

Definition number (r : result R) : M value :=
  x <~ lift r ;; ret (VNum x).

Definition vector (r : result Vector.t) : M value :=
  xs <~ lift r ;; new_seq CVector xs.

Definition matrix (r : result Matrix.t) : M value :=
  A <~ lift r ;; new_matrix A.

Definition exec (c : call) : M value :=
  match c with
  | Vector_norm u => xs <~ read_seq u ;; number (Vector.norm xs)
  | Vector_dot u v =>
      xs <~ read_seq u ;; ys <~ read_seq v ;; number (Vector.dot xs ys)
  | Vector_cross u v =>
      xs <~ read_seq u ;; ys <~ read_seq v ;; vector (Vector.cross xs ys)
  | Vector_angle u v =>
      xs <~ read_seq u ;; ys <~ read_seq v ;; number (Vector.angle xs ys)
  | Vector_oriented_angle u v normal =>
      n <~ match normal with
           | None => new_seq CVector [0; 0; 1]
           | Some l => ret (VRef l)
           end ;;
      ns <~ match n with
            | VRef l => read_seq l
            | VNum _ => lift (Raise TypeError)
            end ;;
      xs <~ read_seq u ;; ys <~ read_seq v ;;
      number (Vector.oriented_angle xs ys (Some ns))
  | Vector_mul u s => xs <~ read_seq u ;; vector (Vector.__mul__ xs s)
  | Vector_div u s => xs <~ read_seq u ;; vector (Vector.__div__ xs s)
  | Vector_add u v =>
      xs <~ read_seq u ;; ys <~ read_seq v ;; vector (Vector.__add__ xs ys)
  | Vector_iadd u v =>
      xs <~ read_seq u ;; ys <~ read_seq v ;; vector (Vector.__iadd__ xs ys)
  | Vector_sub u v =>
      xs <~ read_seq u ;; ys <~ read_seq v ;; vector (Vector.__sub__ xs ys)
  | Vector_isub u v =>
      xs <~ read_seq u ;; ys <~ read_seq v ;; vector (Vector.__isub__ xs ys)
  | Vector_neg u => xs <~ read_seq u ;; vector (Vector.__neg__ xs)
  | Vector_abs u => xs <~ read_seq u ;; number (Vector.__abs__ xs)
  | Matrix_sub A B =>
      a <~ read_matrix A ;; b <~ read_matrix B ;; matrix (Matrix.__sub__ a b)
  | Matrix_abs A => a <~ read_matrix A ;; number (Matrix.__abs__ a)
  | Matrix_mul self x =>
      a <~ read_matrix self ;;
      b <~ read_object x ;;
      o <~ lift (Matrix.__mul__ a b) ;;
      new_object o
  | Matrix_identity => new_matrix Matrix.identity
  | Matrix_rotation angle x y z => matrix (Matrix.rotation angle x y z)
  | Matrix_from_euler_angles alpha beta gamma =>
      new_matrix (Matrix.from_euler_angles alpha beta gamma)
  | Matrix_rotation_deg angle x y z => matrix (Matrix.rotation_deg angle x y z)
  end.

(** [list.__iadd__], which [u += v] would run if [Vector] did not define
    [__iadd__]: it extends [u] in place and returns [u] itself. *)
Definition list_iadd (u v : loc) : M value :=
  a <~ load u ;;
  b <~ load v ;;
  _ <~ store u {| obj_cls := obj_cls a; obj_items := obj_items a ++ obj_items b |} ;;
  ret (VRef u).

(** The items that the store holds at a reference. *)
Definition contents (h : heap) (l : loc) : option (list value) :=
  option_map obj_items (nth_error h l).

End Store.

Import Store.

(** [h'] holds every object of [h], unchanged and at the same reference,
    followed by the objects allocated since. *)
Definition extends (h h' : heap) : Prop := exists k, h' = h ++ k.

(** A computation that leaves every existing object as it was. *)
Definition framed {A : Type} (m : M A) : Prop :=
  forall h, extends h (fst (m h)).

(** A framed computation whose result, when it is an object, was allocated
    by the computation itself. *)
Definition builds (m : M value) : Prop :=
  forall h, exists k,
    fst (m h) = h ++ k /\
    forall l, snd (m h) = Ok (VRef l) -> (length h <= l < length h + length k)%nat.


(** ** Measures used to state further properties *)

(** The magnitudes of the entrywise differences of two matrices. *)
Definition differences (A B : Matrix.t) : list R :=
  map (fun p => Rabs (fst p - snd p))
      (combine (concat (Matrix.entries A)) (concat (Matrix.entries B))).


(** ** The helpers of [src/tests.py] *)

Module Tests.

(** [for i in range(3): for j in range(3)], in the order of the loops. *)
Definition range3x3 : list (nat * nat) :=
  flat_map (fun i => map (fun j => (i, j)) (seq 0 3)) (seq 0 3).

(** The body of [checkdiff] over the index pairs still to visit.  [None] is
    the [IndexError] of [A[i][j]] or [B[i][j]]; a difference above the
    tolerance returns [False] at once, before any later entry is read. *)
Fixpoint checkdiff_from (A B : list (list R)) (ij : list (nat * nat))
  : option bool :=
  match ij with
  | [] => Some true
  | (i, j) :: rest =>
      match nth_error A i with
      | None => None
      | Some ra =>
          match nth_error ra j with
          | None => None
          | Some a =>
              match nth_error B i with
              | None => None
              | Some rb =>
                  match nth_error rb j with
                  | None => None
                  | Some b =>
                      if Rlt_dec 1e-10 (Rabs (a - b)) then Some false
                      else checkdiff_from A B rest
                  end
              end
          end
      end
  end.

Definition checkdiff (A B : list (list R)) : option bool :=
  checkdiff_from A B range3x3.

(** [check_val(a, b)]: [true] when both [assert]s that are reached hold,
    [false] for [AssertionError]. *)
Definition check_val (a b : R) : bool :=
  if Req_dec_T a 0 then
    if Rlt_dec b 1e-6 then true else false
  else
    if Rlt_dec (Rabs (a - b) / a) 1e-6 then true else false.

End Tests.

(** * The interactive builder: [src/spyce/interact.py] *)

From Stdlib Require String.
From Stdlib Require Import ZArith.
Import String.StringSyntax.
Delimit Scope string_scope with string.

Module Interact.

Section Session.

(** The interpreter behind [eval(line, namespace)] is not part of the
    module: its objects, the exceptions an expression may raise, the result
    of evaluating a line, the [int] constants, the test [v == n] against an
    [int], [None], and the body [kerbol["Kerbin"]]. *)
Variable value : Type.
Variable exc : Type.
Variable eval : String.string -> exc + value.
Variable int : Z -> value.
Variable eq_int : value -> Z -> bool.
Variable none : value.
Variable Kerbin : value.

Inductive error : Type :=
| EOFError
| Evaluation (e : exc)
| UnboundLocalError.

(** The lines still to be read and the lines written so far. *)
Record console : Type := { stdin : list String.string; stdout : list String.string }.

Definition IO (A : Type) : Type := console -> console * (error + A).

Definition ret {A : Type} (a : A) : IO A := fun c => (c, inr a).

Definition raise {A : Type} (e : error) : IO A := fun c => (c, inl e).

Definition iobind {A B : Type} (m : IO A) (k : A -> IO B) : IO B :=
  fun c =>
    match m c with
    | (c', inr a) => k a c'
    | (c', inl e) => (c', inl e)
    end.

Notation "x <<- m ;; k" := (iobind m (fun x => k))
  (at level 61, m at next level, right associativity).

Definition print (s : String.string) : IO unit :=
  fun c => ({| stdin := stdin c; stdout := stdout c ++ [s] |}, inr tt).

(** [input(prompt)]: the prompt is written, then a line is read;
    [EOFError] when there is none. *)
Definition input (prompt : String.string) : IO String.string :=
  fun c =>
    match stdin c with
    | [] => ({| stdin := []; stdout := stdout c ++ [prompt] |}, inl EOFError)
    | line :: rest =>
        ({| stdin := rest; stdout := stdout c ++ [prompt] |}, inr line)
    end.

Definition ask (prompt : String.string) (default : value) : IO value :=
  line <<- input prompt ;;
  if String.eqb line String.EmptyString then ret default
  else match eval line with
       | inr v => ret v
       | inl e => raise (Evaluation e)
       end.

(** What [ask] returns for the line it read: the default for an empty
    line, the value of the line otherwise. *)
Definition answered (line : String.string) (default v : value) : Prop :=
  (line = String.EmptyString /\ v = default) \/
  (line <> String.EmptyString /\ eval line = inr v).

(** A [dict] with string keys, in insertion order; assigning to a key that
    is present replaces its value in place. *)
Definition dict : Type := list (String.string * value).

Fixpoint setitem (d : dict) (k : String.string) (v : value) : dict :=
  match d with
  | [] => [(k, v)]
  | (k', v') :: d' =>
      if String.eqb k' k then (k, v) :: d' else (k', v') :: setitem d' k v
  end.

(** The callables that [constructor] may be bound to. *)
Inductive constructor : Set :=
| cls
| from_semi_major_axis
| from_apses
| from_period.

(** The local variables [constructor] (unbound at first) and [args]. *)
Definition locals : Type := option constructor * dict.

(** [if choice == 1: ...] *)
Definition shape_if (choice : value) (st : locals) : IO locals :=
  if eq_int choice 1 then
    p <<- ask "Periapsis: "%string none ;;
    e <<- ask "Eccentricity [0]: "%string (int 0) ;;
    ret (Some cls,
         setitem (setitem (snd st) "periapsis"%string p) "eccentricity"%string e)
  else ret st.

(** [if choice == 2: ... elif choice == 3: ... elif ... == 5: ...] *)
Definition shape_elif (choice : value) (st : locals) : IO locals :=
  if eq_int choice 2 then
    a <<- ask "Semi-major axis: "%string none ;;
    e <<- ask "Eccentricity [0]: "%string (int 0) ;;
    ret (Some from_semi_major_axis,
         setitem (setitem (snd st) "semi_major_axis"%string a)
                 "eccentricity"%string e)
  else if eq_int choice 3 then
    a1 <<- ask "First apsis: "%string (int 0) ;;
    a2 <<- ask "Second apsis: "%string (int 0) ;;
    ret (Some from_apses,
         setitem (setitem (snd st) "apsis1"%string a1) "apsis2"%string a2)
  else if eq_int choice 4 then
    p <<- ask "Period: "%string none ;;
    e <<- ask "Eccentricity [0]: "%string (int 0) ;;
    ret (Some from_period,
         setitem (setitem (snd st) "period"%string p) "eccentricity"%string e)
  else if eq_int choice 5 then
    p <<- ask "Period: "%string none ;;
    a <<- ask "One apsis: "%string (int 0) ;;
    ret (Some from_period,
         setitem (setitem (snd st) "period"%string p) "apsis"%string a)
  else ret st.

(** [ask_orbit]: the value is the call [constructor( **args )] that the last
    line makes, as the callable and its keyword arguments. *)
Definition ask_orbit : IO (constructor * dict) :=
  primary <<- ask "Primary [Kerbin]: "%string Kerbin ;;
  let args := setitem [] "primary"%string primary in
  _ <<- print "== Orbit shape =="%string ;;
  _ <<- print "   1 Periapsis and eccentricity"%string ;;
  _ <<- print "   2 Semi-major axis and eccentricity"%string ;;
  _ <<- print "   3 Periapsis and apoapsis"%string ;;
  _ <<- print "   4 Period and eccentricity"%string ;;
  _ <<- print "   5 Period and an apsis"%string ;;
  _ <<- print "   6 Position and velocity"%string ;;
  choice <<- ask "Choose a method [1]: "%string (int 1) ;;
  st <<- shape_if choice (None, args) ;;
  st <<- shape_elif choice st ;;
  _ <<- print "== Orbital plane =="%string ;;
  _ <<- print "To use degrees, enter `radians(45)` for example"%string ;;
  i <<- ask "Inclination [0]: "%string (int 0) ;;
  let args := setitem (snd st) "inclination"%string i in
  l <<- ask "Longitude of ascending node [0]: "%string (int 0) ;;
  let args := setitem args "longitude_of_ascending_node"%string l in
  w <<- ask "Argument of periapsis [0]: "%string (int 0) ;;
  let args := setitem args "argument_of_periapsis"%string w in
  _ <<- print "== Position =="%string ;;
  t <<- ask "Epoch [0]: "%string (int 0) ;;
  let args := setitem args "epoch"%string t in
  m <<- ask "Mean anomaly [0]: "%string (int 0) ;;
  let args := setitem args "mean_anomaly_at_epoch"%string m in
  match fst st with
  | Some c => ret (c, args)
  | None => raise UnboundLocalError
  end.

End Session.

(** The keyword arguments asked after the shape, in order. *)
Definition plane_keys : list String.string :=
  ["inclination"; "longitude_of_ascending_node"; "argument_of_periapsis";
   "epoch"; "mean_anomaly_at_epoch"]%string.

(** For each choice of the menu that a branch handles: the callable and the
    shape arguments of that branch. *)
Definition branches : list (Z * (constructor * list String.string)) :=
  [(1, (cls, ["periapsis"; "eccentricity"]));
   (2, (from_semi_major_axis, ["semi_major_axis"; "eccentricity"]));
   (3, (from_apses, ["apsis1"; "apsis2"]));
   (4, (from_period, ["period"; "eccentricity"]));
   (5, (from_period, ["period"; "apsis"]))]%string%Z.

(** A small interpreter to run a session with: objects are integers, the
    lines [5] and [6] evaluate to themselves and every other line raises. *)
Definition digit_eval (line : String.string) : unit + Z :=
  if String.eqb line "5"%string then inr 5%Z
  else if String.eqb line "6"%string then inr 6%Z
  else inl tt.

End Interact.
(** ** The cases of [src/tests.py] on this module *)

Ltac run :=
  cbv [Vector.dot Vector.cross Vector.norm Vector.angle Vector.oriented_angle
       Vector.__mul__ Vector.__add__ Vector.__sub__ Vector.__neg__
       Vector.__iadd__ Vector.__isub__ Vector.__abs__ Vector.__div__
       Matrix.__mul__ Matrix.mul Matrix.mul_vector Matrix.unpack_row
       Matrix.iter Matrix.identity Matrix.__sub__ Matrix.sub_items
       Matrix.from_euler_angles Matrix.entries
       Py.unpack3 Py.zip_star Py.max_iter math.fsum
       bind mapM map combine fst snd app fold_right fold_left].

Ltac numbers := repeat (f_equal; try lra).

Example test_dot_easy : Vector.dot [1; 0; 0] [0; 1; 1] = Ok 0.
Proof. run. numbers. Qed.

Example test_dot : Vector.dot [1; 4; 7] [2; 5; 8] = Ok 78.
Proof. run. numbers. Qed.

Example test_cross_easy : Vector.cross [0; 1; 0] [1; 0; 0] = Ok [0; 0; -1].
Proof. run. numbers. Qed.

Example test_cross : Vector.cross [9; 8; 7] [2; 3; 1] = Ok [-13; 5; 11].
Proof. run. numbers. Qed.

Example zip_star_ragged :
  Py.zip_star [[1; 2; 3]; [4; 5]] = [[1; 4]; [2; 5]].
Proof. reflexivity. Qed.

Example test_identity_vector :
  Matrix.__mul__ Matrix.identity (Itm (Row KList [1; 2; 3]))
  = Ok (Itm (Row KVector [1; 2; 3])).
Proof. run. numbers. Qed.

Example test_matrix_product :
  Matrix.mul [Row KList [1; 2; 3]; Row KList [4; 5; 6]; Row KList [7; 8; 9]]
             [Row KList [3; 2; 1]; Row KList [6; 5; 4]; Row KList [9; 8; 7]]
  = Ok [Row KVector [42; 36; 30]; Row KVector [96; 81; 66];
        Row KVector [150; 126; 102]].
Proof. run. numbers. Qed.

Example test_matrix_product_rev :
  Matrix.mul [Row KList [3; 2; 1]; Row KList [6; 5; 4]; Row KList [9; 8; 7]]
             [Row KList [1; 2; 3]; Row KList [4; 5; 6]; Row KList [7; 8; 9]]
  = Ok [Row KVector [18; 24; 30]; Row KVector [54; 69; 84];
        Row KVector [90; 114; 138]].
Proof. run. numbers. Qed.

(** ** Lists of three numbers *)

Lemma length3_inv {A : Type} (l : list A) :
  length l = 3%nat -> exists a b c, l = [a; b; c].
Proof.
  destruct l as [|a [|b [|c [|d l]]]]; simpl; intro H; try discriminate.
  now exists a, b, c.
Qed.

Lemma dot3 (u1 u2 u3 v1 v2 v3 : R) :
  Vector.dot [u1; u2; u3] [v1; v2; v3] = Ok (u1*v1 + u2*v2 + u3*v3).
Proof. run. f_equal. ring. Qed.

Lemma sum_squares_nonneg (x y z : R) : 0 <= x*x + y*y + z*z.
Proof. nra. Qed.

Lemma sum_squares_zero (x y z : R) :
  x*x + y*y + z*z = 0 -> x = 0 /\ y = 0 /\ z = 0.
Proof. intro H. repeat split; nra. Qed.

Lemma math_sqrt_nonneg (x : R) : 0 <= x -> math.sqrt x = Ok (sqrt x).
Proof.
  intro H. unfold math.sqrt. destruct (Rlt_dec x 0); [lra | reflexivity].
Qed.

Lemma norm3 (x y z : R) :
  Vector.norm [x; y; z] = Ok (sqrt (x*x + y*y + z*z)).
Proof.
  unfold Vector.norm. rewrite dot3. cbv [bind].
  apply math_sqrt_nonneg, sum_squares_nonneg.
Qed.

Lemma norm3_zero_iff (x y z : R) :
  sqrt (x*x + y*y + z*z) = 0 <-> [x; y; z] = [0; 0; 0].
Proof.
  split.
  - intro H. apply sqrt_eq_0 in H; [|apply sum_squares_nonneg].
    apply sum_squares_zero in H. destruct H as (-> & -> & ->). reflexivity.
  - intro H. injection H as -> -> ->.
    replace (0*0 + 0*0 + 0*0) with 0 by ring. apply sqrt_0.
Qed.

Lemma truediv_ok (a b : R) : b <> 0 -> Py.truediv a b = Ok (a / b).
Proof.
  intro H. unfold Py.truediv. destruct (Req_dec_T b 0); [contradiction | reflexivity].
Qed.

Lemma truediv_zero (a : R) : Py.truediv a 0 = Raise ZeroDivisionError.
Proof.
  unfold Py.truediv. destruct (Req_dec_T 0 0); [reflexivity | contradiction].
Qed.

Example test_norm : Vector.norm [8; 9; 12] = Ok 17.
Proof.
  rewrite norm3. f_equal. apply sqrt_lem_1; lra.
Qed.

(** ** The clamp of [angle] *)

Lemma py_max_Rmax (a b : R) : Py.max a b = Rmax a b.
Proof.
  unfold Py.max, Rmax. destruct (Rlt_dec a b), (Rle_dec a b); lra.
Qed.

Lemma py_min_Rmin (a b : R) : Py.min a b = Rmin a b.
Proof.
  unfold Py.min, Rmin. destruct (Rlt_dec b a), (Rle_dec a b); lra.
Qed.

Lemma clamp_bounds (r : R) : -1 <= Vector.clamp r <= 1.
Proof.
  unfold Vector.clamp, Py.max, Py.min.
  destruct (Rlt_dec r 1); destruct (Rlt_dec (-1) _); lra.
Qed.

Lemma clamp_id (r : R) : -1 <= r <= 1 -> Vector.clamp r = r.
Proof.
  intro H. unfold Vector.clamp, Py.max, Py.min.
  destruct (Rlt_dec r 1); destruct (Rlt_dec (-1) _); lra.
Qed.

Lemma math_acos_ok (x : R) : -1 <= x <= 1 -> math.acos x = Ok (acos x).
Proof.
  intros [H1 H2]. unfold math.acos.
  destruct (Rle_dec (-1) x); [|contradiction].
  destruct (Rle_dec x 1); [reflexivity | contradiction].
Qed.

Lemma math_acos_domain (x : R) :
  (exists a, math.acos x = Ok a) <-> -1 <= x <= 1.
Proof.
  split.
  - intros [a H]. unfold math.acos in H.
    destruct (Rle_dec (-1) x); [|discriminate].
    destruct (Rle_dec x 1); [lra | discriminate].
  - intro H. eexists. now apply math_acos_ok.
Qed.

(** [angle] on two vectors of three numbers with nonzero norms. *)
Lemma angle3 (u1 u2 u3 v1 v2 v3 : R) :
  [u1; u2; u3] <> [0; 0; 0] -> [v1; v2; v3] <> [0; 0; 0] ->
  Vector.angle [u1; u2; u3] [v1; v2; v3]
  = Ok (acos (Vector.clamp
         ((u1*v1 + u2*v2 + u3*v3) / sqrt (u1*u1 + u2*u2 + u3*u3)
                                  / sqrt (v1*v1 + v2*v2 + v3*v3)))).
Proof.
  intros Hu Hv. unfold Vector.angle.
  rewrite dot3, !norm3. cbv [bind].
  rewrite truediv_ok by (rewrite norm3_zero_iff; exact Hu). cbv [bind].
  rewrite truediv_ok by (rewrite norm3_zero_iff; exact Hv). cbv [bind].
  apply math_acos_ok, clamp_bounds.
Qed.

(** A list of three literals is not the zero vector. *)
Ltac nonzero3 := let H := fresh in intro H; inversion H; lra.

(** ** Claims on [Vector] *)




(** C7. A zero-length axis or vector raises [ZeroDivisionError] at the
    division by the zero norm: [Matrix.rotation] (and [rotation_deg]) with
    axis (0,0,0) at every angle, and [angle] and [oriented_angle] as soon as
    one of the two vectors [u], [v] whose angle is taken is (0,0,0), whatever
    the normal.  No number is returned. *)
Theorem C7_zero_length_raises :
  (forall theta : R,
      Matrix.rotation theta 0 0 0 = Raise ZeroDivisionError /\
      Matrix.rotation_deg theta 0 0 0 = Raise ZeroDivisionError) /\
  (forall (u v : Vector.t) (normal : option Vector.t),
      length u = 3%nat -> length v = 3%nat ->
      u = [0; 0; 0] \/ v = [0; 0; 0] ->
      Vector.angle u v = Raise ZeroDivisionError /\
      Vector.oriented_angle u v normal = Raise ZeroDivisionError).
Proof.
  split.
  - assert (H : forall theta, Matrix.rotation theta 0 0 0 = Raise ZeroDivisionError).
    { intro theta. unfold Matrix.rotation.
      replace (0*0 + 0*0 + 0*0) with 0 by ring.
      rewrite math_sqrt_nonneg by lra. rewrite sqrt_0. cbv [bind].
      now rewrite truediv_zero. }
    intro theta. split; [apply H | apply H].
  - intros u v normal Lu Lv Hz.
    assert (Ha : Vector.angle u v = Raise ZeroDivisionError).
    { destruct (length3_inv u Lu) as (u1 & u2 & u3 & ->).
      destruct (length3_inv v Lv) as (v1 & v2 & v3 & ->).
      unfold Vector.angle. rewrite dot3, !norm3. cbv [bind].
      destruct (Req_dec_T (sqrt (u1*u1 + u2*u2 + u3*u3)) 0) as [Eu|Nu].
      - rewrite Eu. now rewrite truediv_zero.
      - rewrite truediv_ok by assumption. cbv [bind].
        destruct Hz as [Hz|Hz].
        + apply norm3_zero_iff in Hz. contradiction.
        + apply norm3_zero_iff in Hz. rewrite Hz. now rewrite truediv_zero. }
    split; [exact Ha|].
    unfold Vector.oriented_angle. now rewrite Ha.
Qed.

Lemma C7_zero_length_raises_witness :
  Vector.angle [0; 0; 0] [1; 2; 3] = Raise ZeroDivisionError /\
  Vector.oriented_angle [1; 2; 3] [0; 0; 0] None = Raise ZeroDivisionError.
Proof.
  split.
  - apply (proj2 C7_zero_length_raises [0; 0; 0] [1; 2; 3] None);
      [reflexivity | reflexivity | left; reflexivity].
  - apply (proj2 C7_zero_length_raises [1; 2; 3] [0; 0; 0] None);
      [reflexivity | reflexivity | right; reflexivity].
Defined.

(** The normal is never normalised: a zero normal reaches no division, the
    test [normal . (u x v) < 0] fails and the unsigned angle is returned. *)
Lemma oriented_angle_zero_normal (u v : Vector.t) :
  length u = 3%nat -> length v = 3%nat ->
  u <> [0; 0; 0] -> v <> [0; 0; 0] ->
  Vector.oriented_angle u v (Some [0; 0; 0]) = Vector.angle u v.
Proof.
  intros Lu Lv Hu Hv.
  destruct (length3_inv u Lu) as (u1 & u2 & u3 & ->).
  destruct (length3_inv v Lv) as (v1 & v2 & v3 & ->).
  unfold Vector.oriented_angle. rewrite (angle3 _ _ _ _ _ _ Hu Hv). cbv [bind].
  change (Vector.cross [u1; u2; u3] [v1; v2; v3])
    with (Ok [u2*v3 - u3*v2; u3*v1 - u1*v3; u1*v2 - u2*v1]).
  cbv beta iota. rewrite dot3.
  destruct (Rlt_dec _ 0) as [Hd|Hd]; [|reflexivity].
  exfalso. lra.
Qed.

(** C9. For nonzero vectors [u] and [v] and a normal [n] of three numbers,
    where [n] is (0,0,1) when the argument is omitted, [oriented_angle]
    returns the opposite of [angle(u, v)] exactly when [n . (u x v) < 0], and
    [angle(u, v)] otherwise. *)
Theorem C9_oriented_angle_sign :
  forall (u v : Vector.t) (normal : option Vector.t) (n : Vector.t),
    length u = 3%nat -> length v = 3%nat ->
    u <> [0; 0; 0] -> v <> [0; 0; 0] ->
    n = match normal with None => [0; 0; 1] | Some n' => n' end ->
    length n = 3%nat ->
    exists a w d,
      Vector.angle u v = Ok a /\
      Vector.cross u v = Ok w /\
      Vector.dot n w = Ok d /\
      (d < 0 -> Vector.oriented_angle u v normal = Ok (- a)) /\
      (~ d < 0 -> Vector.oriented_angle u v normal = Ok a).
Proof.
  intros u v normal n Lu Lv Hu Hv Hn Ln.
  destruct (length3_inv u Lu) as (u1 & u2 & u3 & ->).
  destruct (length3_inv v Lv) as (v1 & v2 & v3 & ->).
  destruct (length3_inv n Ln) as (n1 & n2 & n3 & En).
  pose proof (angle3 u1 u2 u3 v1 v2 v3 Hu Hv) as Ha.
  eexists _, _, _.
  split; [exact Ha|].
  split; [reflexivity|].
  rewrite En. split; [apply dot3|].
  unfold Vector.oriented_angle. rewrite <- Hn, En, Ha. cbv [bind].
  change (Vector.cross [u1; u2; u3] [v1; v2; v3])
    with (Ok [u2*v3 - u3*v2; u3*v1 - u1*v3; u1*v2 - u2*v1]).
  cbv beta iota. rewrite dot3.
  destruct (Rlt_dec _ 0) as [Hd|Hd]; split; intro H; try reflexivity; contradiction.
Qed.

Lemma C9_oriented_angle_sign_witness :
  exists a, Vector.angle [0; 1; 0] [1; 0; 0] = Ok a /\
            Vector.oriented_angle [0; 1; 0] [1; 0; 0] None = Ok (- a).
Proof.
  destruct (C9_oriented_angle_sign [0; 1; 0] [1; 0; 0] None [0; 0; 1])
    as (a & w & d & Ha & Hw & Hd & Hneg & _).
  - reflexivity.
  - reflexivity.
  - nonzero3.
  - nonzero3.
  - reflexivity.
  - reflexivity.
  - exists a. split; [exact Ha|]. apply Hneg.
    injection Hw as <-. rewrite dot3 in Hd. injection Hd as <-. lra.
Defined.

(** ** [abs] of a vector *)

Lemma fold_max_in (l : list R) (x : R) : In (fold_left Py.max l x) (x :: l).
Proof.
  revert x. induction l as [|y l IH]; intro x; simpl.
  - now left.
  - destruct (IH (Py.max x y)) as [H|H].
    + rewrite <- H. unfold Py.max. destruct (Rlt_dec x y); simpl; auto.
    + simpl. auto.
Qed.

Lemma abs_in (u : Vector.t) (m : R) : Vector.__abs__ u = Ok m -> In m u.
Proof.
  destruct u as [|x l]; simpl; intro H; [discriminate|].
  injection H as <-. apply fold_max_in.
Qed.

Lemma chebyshev_nonneg (u : Vector.t) : 0 <= Vector.chebyshev u.
Proof.
  induction u as [|x u IH]; simpl; [lra|].
  eapply Rle_trans; [exact IH | apply Rmax_r].
Qed.

Lemma chebyshev_ge (u : Vector.t) (c : R) :
  In c u -> Rabs c <= Vector.chebyshev u.
Proof.
  induction u as [|x u IH]; simpl; [tauto|].
  intros [->|H].
  - apply Rmax_l.
  - eapply Rle_trans; [apply IH, H | apply Rmax_r].
Qed.

Lemma abs3 (x y z : R) : Vector.__abs__ [x; y; z] = Ok (Rmax (Rmax x y) z).
Proof. cbv [Vector.__abs__ Py.max_iter fold_left]. now rewrite !py_max_Rmax. Qed.

Ltac rmax := unfold Rmax; repeat (destruct (Rle_dec _ _)); lra.

(** C10. [abs(u)] is the maximum component [max(x, y, z)], not the maximum
    absolute component.  When every component of largest magnitude is
    negative, the result is strictly below the Chebyshev norm; for (-5,1,2)
    it is 2 where the norm is 5, and for (-1,-2,-3) it is negative. *)
Theorem C10_abs_is_max_component :
  (forall x y z : R, Vector.__abs__ [x; y; z] = Ok (Rmax (Rmax x y) z)) /\
  (forall x y z : R,
      (forall c, In c [x; y; z] ->
                 Rabs c = Vector.chebyshev [x; y; z] -> c < 0) ->
      exists m, Vector.__abs__ [x; y; z] = Ok m /\
                m < Vector.chebyshev [x; y; z]) /\
  (Vector.__abs__ [-5; 1; 2] = Ok 2 /\ Vector.chebyshev [-5; 1; 2] = 5) /\
  (Vector.__abs__ [-1; -2; -3] = Ok (-1) /\ -1 < 0).
Proof.
  split; [exact abs3|]. split; [|split].
  - intros x y z H. exists (Rmax (Rmax x y) z). split; [apply abs3|].
    set (m := Rmax (Rmax x y) z).
    assert (Hin : In m [x; y; z]) by (apply abs_in, abs3).
    pose proof (chebyshev_ge _ _ Hin) as Hle.
    pose proof (chebyshev_nonneg [x; y; z]) as Hpos.
    pose proof (Rle_abs m) as Hm.
    destruct (Rlt_dec m (Vector.chebyshev [x; y; z])) as [|Hn]; [assumption|].
    exfalso.
    assert (Habs : Rabs m = Vector.chebyshev [x; y; z]) by lra.
    specialize (H m Hin Habs). lra.
  - split.
    + rewrite abs3. apply f_equal. rmax.
    + cbv [Vector.chebyshev fold_right].
      rewrite (Rabs_left (-5)), (Rabs_right 1), (Rabs_right 2) by lra. rmax.
  - split; [|lra]. rewrite abs3. apply f_equal. rmax.
Qed.

Lemma C10_abs_is_max_component_witness :
  exists m, Vector.__abs__ [-5; 1; 2] = Ok m /\ m < Vector.chebyshev [-5; 1; 2].
Proof.
  apply (proj1 (proj2 C10_abs_is_max_component) (-5) 1 2).
  intros c Hin.
  rewrite (proj2 (proj1 (proj2 (proj2 C10_abs_is_max_component)))).
  destruct Hin as [<-|[<-|[<-|[]]]]; intro H.
  - lra.
  - rewrite Rabs_right in H; lra.
  - rewrite Rabs_right in H; lra.
Defined.

(** ** The shape of matrices *)

Lemma is_row3_inv (i : item) :
  Matrix.is_row3 i = true -> exists k a b c, i = Row k [a; b; c].
Proof.
  destruct i as [x|k r]; simpl; intro H; [discriminate|].
  apply Nat.eqb_eq in H. destruct (length3_inv r H) as (a & b & c & ->).
  now exists k, a, b, c.
Qed.

Lemma wf_inv (A : Matrix.t) :
  Matrix.wf A = true ->
  exists k1 a b c k2 d e f k3 g h i,
    A = [Row k1 [a; b; c]; Row k2 [d; e; f]; Row k3 [g; h; i]].
Proof.
  unfold Matrix.wf. intro H. apply andb_prop in H. destruct H as [L F].
  apply Nat.eqb_eq in L. destruct (length3_inv A L) as (r1 & r2 & r3 & ->).
  simpl in F. repeat (apply andb_prop in F; destruct F as [?H F]).
  destruct (is_row3_inv r1 H) as (k1 & a & b & c & ->).
  destruct (is_row3_inv r2 H0) as (k2 & d & e & f & ->).
  destruct (is_row3_inv r3 H1) as (k3 & g & h & i & ->).
  now exists k1, a, b, c, k2, d, e, f, k3, g, h, i.
Qed.

(** The product of two well-formed matrices, entry by entry. *)
Lemma mul_entries (k1 k2 k3 l1 l2 l3 : kind)
      (a b c d e f g h i a' b' c' d' e' f' g' h' i' : R) :
  Matrix.mul [Row k1 [a; b; c]; Row k2 [d; e; f]; Row k3 [g; h; i]]
             [Row l1 [a'; b'; c']; Row l2 [d'; e'; f']; Row l3 [g'; h'; i']]
  = Ok [Row KVector [a'*a + d'*b + g'*c; b'*a + e'*b + h'*c; c'*a + f'*b + i'*c];
        Row KVector [a'*d + d'*e + g'*f; b'*d + e'*e + h'*f; c'*d + f'*e + i'*f];
        Row KVector [a'*g + d'*h + g'*i; b'*g + e'*h + h'*i; c'*g + f'*h + i'*i]].
Proof. reflexivity. Qed.

Lemma sub_entries (k1 k2 k3 l1 l2 l3 : kind)
      (a b c d e f g h i a' b' c' d' e' f' g' h' i' : R) :
  Matrix.__sub__
    [Row k1 [a; b; c]; Row k2 [d; e; f]; Row k3 [g; h; i]]
    [Row l1 [a'; b'; c']; Row l2 [d'; e'; f']; Row l3 [g'; h'; i']]
  = Ok [Num (a - a'); Num (b - b'); Num (c - c');
        Num (d - d'); Num (e - e'); Num (f - f');
        Num (g - g'); Num (h - h'); Num (i - i')].
Proof. reflexivity. Qed.

Lemma rotation_wf (theta x y z : R) (M : Matrix.t) :
  Matrix.rotation theta x y z = Ok M -> Matrix.wf M = true.
Proof.
  unfold Matrix.rotation. intro H.
  destruct (math.sqrt _) as [d|]; [|discriminate]. cbv [bind] in H.
  repeat (destruct (Py.truediv _ d); [|discriminate]).
  injection H as <-. reflexivity.
Qed.

(** C2. The constructors [identity], [rotation] and [from_euler_angles] and
    the product of two matrices give three rows of three columns.  The
    difference does not: for matrices [A] and [B] that satisfy the invariant,
    [A - B] is a [Matrix] holding the nine differences as nine numbers, with
    no rows, and so breaks the invariant. *)
Theorem C2_matrix_sub_flat :
  Matrix.wf Matrix.identity = true /\
  (forall alpha beta gamma,
      Matrix.wf (Matrix.from_euler_angles alpha beta gamma) = true) /\
  (forall theta x y z M,
      Matrix.rotation theta x y z = Ok M -> Matrix.wf M = true) /\
  (forall A B, Matrix.wf A = true -> Matrix.wf B = true ->
      exists C, Matrix.mul A B = Ok C /\ Matrix.wf C = true) /\
  (forall A B, Matrix.wf A = true -> Matrix.wf B = true ->
      exists M, Matrix.__sub__ A B = Ok M /\
                length M = 9%nat /\
                Forall (fun i => exists x, i = Num x) M /\
                Matrix.wf M = false).
Proof.
  split; [reflexivity|]. split; [reflexivity|]. split; [exact rotation_wf|].
  split.
  - intros A B HA HB.
    destruct (wf_inv A HA) as (k1 & a & b & c & k2 & d & e & f & k3 & g & h & i & ->).
    destruct (wf_inv B HB) as (l1 & a' & b' & c' & l2 & d' & e' & f' & l3 & g' & h' & i' & ->).
    rewrite mul_entries. eexists. split; reflexivity.
  - intros A B HA HB.
    destruct (wf_inv A HA) as (k1 & a & b & c & k2 & d & e & f & k3 & g & h & i & ->).
    destruct (wf_inv B HB) as (l1 & a' & b' & c' & l2 & d' & e' & f' & l3 & g' & h' & i' & ->).
    rewrite sub_entries. eexists. split; [reflexivity|].
    split; [reflexivity|]. split; [|reflexivity].
    repeat constructor; eexists; reflexivity.
Qed.

(** At [identity - identity] the result is nine zeros in one list. *)
Lemma C2_matrix_sub_flat_witness :
  exists M, Matrix.__sub__ Matrix.identity Matrix.identity = Ok M /\
            length M = 9%nat /\ Matrix.wf M = false.
Proof.
  destruct (proj2 (proj2 (proj2 (proj2 C2_matrix_sub_flat)))
              Matrix.identity Matrix.identity eq_refl eq_refl)
    as (M & HM & HL & _ & HW).
  exists M. repeat split; assumption.
Defined.

Example sub_identity_identity :
  Matrix.__sub__ Matrix.identity Matrix.identity
  = Ok [Num 0; Num 0; Num 0; Num 0; Num 0; Num 0; Num 0; Num 0; Num 0].
Proof. unfold Matrix.identity. rewrite sub_entries. numbers. Qed.

(** ** Rotations *)

(** Rodrigues' matrix for a unit axis [(x, y, z)], cosine [c] and sine [s]. *)
Lemma rotation_ok (theta x y z : R) :
  [x; y; z] <> [0; 0; 0] ->
  Matrix.rotation theta x y z =
  let d := sqrt (x*x + y*y + z*z) in
  let s := sin theta in
  let c := cos theta in
  Ok [Row KList [x/d*(x/d)*(1-c)+c;       x/d*(y/d)*(1-c)-z/d*s; x/d*(z/d)*(1-c)+y/d*s];
      Row KList [y/d*(x/d)*(1-c)+z/d*s;   y/d*(y/d)*(1-c)+c;     y/d*(z/d)*(1-c)-x/d*s];
      Row KList [z/d*(x/d)*(1-c)-y/d*s;   z/d*(y/d)*(1-c)+x/d*s; z/d*(z/d)*(1-c)+c]].
Proof.
  intro H. unfold Matrix.rotation.
  rewrite math_sqrt_nonneg by apply sum_squares_nonneg. cbv [bind].
  assert (Hd : sqrt (x*x + y*y + z*z) <> 0) by (rewrite norm3_zero_iff; exact H).
  rewrite !truediv_ok by exact Hd. reflexivity.
Qed.

Lemma unit_axis (x y z : R) :
  [x; y; z] <> [0; 0; 0] ->
  let d := sqrt (x*x + y*y + z*z) in
  x/d*(x/d) + y/d*(y/d) + z/d*(z/d) = 1.
Proof.
  intros H d.
  assert (Hd : d <> 0) by (unfold d; rewrite norm3_zero_iff; exact H).
  assert (Hs : d * d = x*x + y*y + z*z) by (apply sqrt_sqrt, sum_squares_nonneg).
  field_simplify_eq; [|exact Hd]. lra.
Qed.

Lemma sin_cos_one (theta : R) : cos theta * cos theta + sin theta * sin theta = 1.
Proof. pose proof (sin2_cos2 theta) as H. unfold Rsqr in H. lra. Qed.

Lemma rotation_z (theta : R) :
  Matrix.rotation theta 0 0 1 =
  Ok [Row KList [cos theta; - sin theta; 0];
      Row KList [sin theta; cos theta; 0];
      Row KList [0; 0; 1]].
Proof.
  rewrite rotation_ok by nonzero3. cbv zeta.
  replace (0*0 + 0*0 + 1*1) with 1 by ring. rewrite sqrt_1.
  repeat (f_equal; try field).
Qed.

Lemma rotation_x (theta : R) :
  Matrix.rotation theta 1 0 0 =
  Ok [Row KList [1; 0; 0];
      Row KList [0; cos theta; - sin theta];
      Row KList [0; sin theta; cos theta]].
Proof.
  rewrite rotation_ok by nonzero3. cbv zeta.
  replace (1*1 + 0*0 + 0*0) with 1 by ring. rewrite sqrt_1.
  repeat (f_equal; try field).
Qed.

Example test_rotation_quarter_turn :
  Matrix.rotation (PI / 2) 1 0 0 =
  Ok [Row KList [1; 0; 0]; Row KList [0; 0; -1]; Row KList [0; 1; 0]].
Proof.
  rewrite rotation_x, cos_PI2, sin_PI2. repeat (f_equal; try lra).
Qed.

(** C5. [from_euler_angles(alpha, beta, gamma)] is the Z-X-Z matrix: its
    entries are those of the reference table, and they are the entries of
    [rotation(alpha, 0,0,1) * rotation(beta, 1,0,0) * rotation(gamma, 0,0,1)],
    all three rotations and both products returning without exception. *)
Theorem C5_euler_zxz (alpha beta gamma : R) :
  let c1 := cos alpha in let s1 := sin alpha in
  let c2 := cos beta in  let s2 := sin beta in
  let c3 := cos gamma in let s3 := sin gamma in
  Matrix.entries (Matrix.from_euler_angles alpha beta gamma)
  = [[c1*c3 - c2*s1*s3; - c1*s3 - c2*c3*s1; s1*s2];
     [c3*s1 + c1*c2*s3; c1*c2*c3 - s1*s3;   - c1*s2];
     [s2*s3;            c3*s2;              c2]]
  /\
  exists Z1 X2 Z3 Z1X2 P : Matrix.t,
    Matrix.rotation alpha 0 0 1 = Ok Z1 /\
    Matrix.rotation beta 1 0 0 = Ok X2 /\
    Matrix.rotation gamma 0 0 1 = Ok Z3 /\
    Matrix.mul Z1 X2 = Ok Z1X2 /\
    Matrix.mul Z1X2 Z3 = Ok P /\
    Matrix.entries P = Matrix.entries (Matrix.from_euler_angles alpha beta gamma).
Proof.
  cbv zeta. split; [reflexivity|].
  eexists _, _, _, _, _.
  split; [apply rotation_z|]. split; [apply rotation_x|].
  split; [apply rotation_z|].
  split; [apply mul_entries|]. split; [apply mul_entries|].
  cbv [Matrix.entries Matrix.from_euler_angles map math.cos math.sin].
  repeat (f_equal; try ring).
Qed.

(** C6. For a nonzero axis [(x, y, z)] and every angle [theta], both
    rotations return and [rotation(theta, x,y,z) * rotation(-theta, x,y,z)]
    has the entries of the identity matrix. *)
Theorem C6_rotation_inverse (theta x y z : R) :
  [x; y; z] <> [0; 0; 0] ->
  exists A B P : Matrix.t,
    Matrix.rotation theta x y z = Ok A /\
    Matrix.rotation (- theta) x y z = Ok B /\
    Matrix.mul A B = Ok P /\
    Matrix.entries P = Matrix.entries Matrix.identity.
Proof.
  intro H. eexists _, _, _.
  split; [apply (rotation_ok theta), H|].
  split; [apply (rotation_ok (- theta)), H|].
  cbv zeta. split; [apply mul_entries|].
  rewrite cos_neg, sin_neg.
  pose proof (unit_axis x y z H) as Hu. cbv zeta in Hu.
  pose proof (sin_cos_one theta) as Ht.
  set (d := sqrt (x*x + y*y + z*z)) in *.
  generalize dependent (x / d). intro a.
  generalize dependent (y / d). intro b.
  generalize dependent (z / d). intros c Hu.
  generalize dependent (cos theta). intro C.
  generalize dependent (sin theta). intros S Ht.
  cbv [Matrix.entries Matrix.identity map].
  repeat (f_equal; try nsatz).
Qed.

Lemma C6_rotation_inverse_witness :
  exists A B P : Matrix.t,
    Matrix.rotation (PI / 3) 1 2 3 = Ok A /\
    Matrix.rotation (- (PI / 3)) 1 2 3 = Ok B /\
    Matrix.mul A B = Ok P /\
    Matrix.entries P = Matrix.entries Matrix.identity.
Proof. apply (C6_rotation_inverse (PI / 3) 1 2 3). nonzero3. Defined.

(** ** The object layer: what a method does to the store *)

Lemma extends_refl (h : heap) : extends h h.
Proof. exists []. now rewrite app_nil_r. Qed.

Lemma extends_trans (h1 h2 h3 : heap) :
  extends h1 h2 -> extends h2 h3 -> extends h1 h3.
Proof. intros [k1 ->] [k2 ->]. exists (k1 ++ k2). now rewrite app_assoc. Qed.

Lemma extends_lookup (h h' : heap) (l : loc) (o : obj) :
  extends h h' -> nth_error h l = Some o -> nth_error h' l = Some o.
Proof.
  intros [k ->] H. rewrite nth_error_app1; [exact H|].
  apply nth_error_Some. congruence.
Qed.

Lemma framed_ret {A : Type} (a : A) : framed (ret a).
Proof. intro h. apply extends_refl. Qed.

Lemma framed_lift {A : Type} (r : result A) : framed (lift r).
Proof. intro h. apply extends_refl. Qed.

Lemma framed_load (l : loc) : framed (load l).
Proof. intro h. unfold load. destruct (nth_error h l); apply extends_refl. Qed.

Lemma framed_alloc (c : cls) (items : list value) : framed (alloc c items).
Proof. intro h. now eexists. Qed.

Lemma framed_bind {A B : Type} (m : M A) (k : A -> M B) :
  framed m -> (forall a, framed (k a)) -> framed (mbind m k).
Proof.
  intros Hm Hk h. unfold mbind. specialize (Hm h).
  destruct (m h) as [h' [a|e]]; simpl in *.
  - eapply extends_trans; [exact Hm | apply Hk].
  - exact Hm.
Qed.

Lemma framed_mmap {A B : Type} (f : A -> M B) (l : list A) :
  (forall a, framed (f a)) -> framed (mmap f l).
Proof.
  intro Hf. induction l as [|x l IH]; simpl.
  - apply framed_ret.
  - apply framed_bind; [apply Hf|]. intro y.
    apply framed_bind; [exact IH|]. intro ys. apply framed_ret.
Qed.

Lemma builds_framed (m : M value) : builds m -> framed m.
Proof. intros H h. destruct (H h) as (k & E & _). now exists k. Qed.

Lemma builds_bind {A : Type} (m : M A) (k : A -> M value) :
  framed m -> (forall a, builds (k a)) -> builds (mbind m k).
Proof.
  intros Hm Hk h. unfold mbind. destruct (Hm h) as [k1 E1].
  destruct (m h) as [h' [a|e]]; simpl in *; subst h'.
  - destruct (Hk a (h ++ k1)) as (k2 & E2 & F2).
    exists (k1 ++ k2). split; [now rewrite E2, app_assoc|].
    intros l Hl. specialize (F2 l Hl). rewrite !length_app in *. lia.
  - exists k1. split; [reflexivity | discriminate].
Qed.

Lemma builds_number (r : result R) : builds (number r).
Proof.
  intro h. exists []. unfold number, mbind, lift, ret.
  destruct r; simpl; (split; [now rewrite app_nil_r | discriminate]).
Qed.

Lemma builds_new_seq (c : cls) (xs : list R) : builds (new_seq c xs).
Proof.
  intro h. eexists. split; [reflexivity|].
  simpl. intros l H. injection H as <-. lia.
Qed.

Lemma builds_new_item (i : item) : builds (new_item i).
Proof.
  destruct i as [x|k r]; [|apply builds_new_seq].
  intro h. exists []. simpl. split; [now rewrite app_nil_r | discriminate].
Qed.

Lemma builds_new_matrix (A : Matrix.t) : builds (new_matrix A).
Proof.
  apply builds_bind.
  - apply framed_mmap. intro i. apply builds_framed, builds_new_item.
  - intros vs h. eexists. split; [reflexivity|].
    simpl. intros l H. injection H as <-. lia.
Qed.

Lemma builds_new_object (o : object) : builds (new_object o).
Proof. destruct o; [apply builds_new_matrix | apply builds_new_item]. Qed.

Lemma builds_vector (r : result Vector.t) : builds (vector r).
Proof. apply builds_bind; [apply framed_lift | intro; apply builds_new_seq]. Qed.

Lemma builds_matrix (r : result Matrix.t) : builds (matrix r).
Proof. apply builds_bind; [apply framed_lift | intro; apply builds_new_matrix]. Qed.

Lemma framed_read_seq (l : loc) : framed (read_seq l).
Proof. apply framed_bind; [apply framed_load | intro; apply framed_lift]. Qed.

Lemma framed_read_item (v : value) : framed (read_item v).
Proof.
  destruct v; [apply framed_ret|].
  repeat (apply framed_bind; [first [apply framed_load | apply framed_lift]|]; intro).
  apply framed_ret.
Qed.

Lemma framed_read_matrix (l : loc) : framed (read_matrix l).
Proof.
  apply framed_bind; [apply framed_load|]. intro o.
  apply framed_mmap, framed_read_item.
Qed.

Lemma framed_read_object (v : value) : framed (read_object v).
Proof.
  destruct v as [x|l]; [apply framed_ret|].
  apply framed_bind; [apply framed_load|]. intro o.
  destruct (obj_cls o);
    (apply framed_bind;
     [first [apply framed_mmap, framed_read_item | apply framed_read_item]
     | intro; apply framed_ret]).
Qed.

Create HintDb store.
#[local] Hint Resolve framed_ret framed_lift framed_load framed_alloc
  framed_read_seq framed_read_matrix framed_read_object builds_framed
  builds_number builds_vector builds_matrix builds_new_seq builds_new_matrix
  builds_new_object : store.

(** Reads first, then the construction of the result. *)
Ltac step_builds :=
  first [ solve [auto with store]
        | apply builds_bind; [solve [auto with store] | intro; step_builds] ].

Lemma exec_builds (c : call) : builds (exec c).
Proof.
  destruct c; simpl; try solve [step_builds].
  apply builds_bind.
  - match goal with
    | |- framed (match ?n with Some _ => _ | None => _ end) => destruct n
    end; auto with store.
  - intros [x|l]; step_builds.
Qed.

(** C8. No operation of [Vector] or [Matrix] mutates an operand.  Whatever
    the call ([norm], [dot], [cross], [angle], [oriented_angle], the
    arithmetic operators with [__iadd__] and [__isub__], [abs], the matrix
    difference and products, the constructors), whatever the store, and
    whether the call returns or raises: every object of the store is
    afterwards what it was before, at the same reference; and when the call
    returns an object, that object is a new one, allocated by the call and
    distinct from every object that existed before.  (A call that returns a
    number returns an immutable value.) *)
Theorem C8_operands_unchanged (c : call) (h : heap) :
  let h' := fst (exec c h) in
  (forall l o, nth_error h l = Some o -> nth_error h' l = Some o) /\
  (forall l, snd (exec c h) = Ok (VRef l) ->
             nth_error h l = None /\ exists o, nth_error h' l = Some o).
Proof.
  cbv zeta. destruct (exec_builds c h) as (k & E & F). split.
  - intros l o H. eapply extends_lookup; [|exact H]. now exists k.
  - intros l H. specialize (F l H). split.
    + apply nth_error_None. lia.
    + destruct (nth_error (fst (exec c h)) l) as [o|] eqn:N; [now exists o|].
      apply nth_error_None in N. rewrite E, length_app in N. lia.
Qed.

(** [u += v] on the vectors (1,2,3) and (4,5,6) held at references 0 and 1:
    both keep their items and the sum is the new object at reference 2. *)
Lemma C8_operands_unchanged_witness :
  let h := [ {| obj_cls := CVector; obj_items := [VNum 1; VNum 2; VNum 3] |};
             {| obj_cls := CVector; obj_items := [VNum 4; VNum 5; VNum 6] |} ] in
  let h' := fst (exec (Vector_iadd 0 1) h) in
  snd (exec (Vector_iadd 0 1) h) = Ok (VRef 2) /\
  contents h' 0 = Some [VNum 1; VNum 2; VNum 3] /\
  contents h' 1 = Some [VNum 4; VNum 5; VNum 6] /\
  nth_error h 2 = None /\ exists o, nth_error h' 2 = Some o.
Proof.
  intros h h'.
  pose proof (C8_operands_unchanged (Vector_iadd 0 1) h) as [Keep New].
  fold h' in Keep, New.
  split; [reflexivity|].
  split; [unfold contents; now rewrite (Keep 0%nat _ eq_refl)|].
  split; [unfold contents; now rewrite (Keep 1%nat _ eq_refl)|].
  apply (New 2%nat). reflexivity.
Defined.

(** The store can tell the difference: [list.__iadd__], which [Vector]
    overrides, returns its left operand with new items. *)
Example list_iadd_mutates :
  let h := [ {| obj_cls := CList; obj_items := [VNum 1] |};
             {| obj_cls := CList; obj_items := [VNum 2] |} ] in
  snd (list_iadd 0 1 h) = Ok (VRef 0) /\
  contents h 0 = Some [VNum 1] /\
  contents (fst (list_iadd 0 1 h)) 0 = Some [VNum 1; VNum 2].
Proof. repeat split. Qed.

(** A product of matrices in the store: the operands keep their rows and
    the result is a matrix of three new [Vector] rows. *)
Example matrix_mul_in_store :
  let h0 : heap := [] in
  let h1 := fst (exec Matrix_identity h0) in
  let h2 := fst (exec (Matrix_mul 3 (VRef 3)) h1) in
  snd (exec Matrix_identity h0) = Ok (VRef 3) /\
  snd (exec (Matrix_mul 3 (VRef 3)) h1) = Ok (VRef 7) /\
  contents h2 3 = Some [VRef 0; VRef 1; VRef 2] /\
  contents h2 7 = Some [VRef 4; VRef 5; VRef 6] /\
  option_map obj_cls (nth_error h2 4) = Some CVector.
Proof. repeat split. Qed.

(** * Further properties of [src/spyce/vector.py] *)

(** Case analysis on a list against the length that unpacking expects. *)
Ltac by_length u := destruct u as [|? [|? [|? [|? ?]]]].

Ltac unpack :=
  cbv [Vector.dot Vector.cross Vector.__neg__ Vector.__add__ Vector.__sub__
       Vector.__iadd__ Vector.__isub__ Vector.__mul__ Py.unpack3 bind
       math.fsum fold_right].

(** Equality of two returned lists, item by item. *)
Ltac items :=
  repeat match goal with
         | |- Ok _ = Ok _ => apply f_equal
         | |- _ :: _ = _ :: _ => apply f_equal2
         | |- [] = [] => reflexivity
         end.

(** X1. Swapping the operands: [u.dot(v)] is [v.dot(u)], and
    [u.cross(v)] is the opposite of [v.cross(u)].  Both hold on all lists:
    when a list does not hold three numbers, the two sides raise the same
    [ValueError]. *)
Theorem X1_dot_cross_swap (u v : Vector.t) :
  Vector.dot u v = Vector.dot v u /\
  Vector.cross u v = (w <- Vector.cross v u ;; Vector.__neg__ w).
Proof.
  split.
  - by_length u; by_length v; unpack; try reflexivity. f_equal. ring.
  - by_length u; by_length v; unpack; try reflexivity. items; ring.
Qed.

(** X2. The cross product of two vectors of three numbers is orthogonal to
    both: [u.dot(u.cross(v))] and [v.dot(u.cross(v))] are 0. *)
Theorem X2_cross_orthogonal (u v : Vector.t) :
  length u = 3%nat -> length v = 3%nat ->
  exists w, Vector.cross u v = Ok w /\
            Vector.dot u w = Ok 0 /\ Vector.dot v w = Ok 0.
Proof.
  intros Lu Lv.
  destruct (length3_inv u Lu) as (u1 & u2 & u3 & ->).
  destruct (length3_inv v Lv) as (v1 & v2 & v3 & ->).
  eexists. split; [reflexivity|].
  rewrite !dot3. split; f_equal; ring.
Qed.

Lemma X2_cross_orthogonal_witness :
  exists w, Vector.cross [9; 8; 7] [2; 3; 1] = Ok w /\
            Vector.dot [9; 8; 7] w = Ok 0 /\ Vector.dot [2; 3; 1] w = Ok 0.
Proof. apply (X2_cross_orthogonal [9; 8; 7] [2; 3; 1]); reflexivity. Defined.

(** Lagrange's identity on components. *)
Lemma lagrange (u1 u2 u3 v1 v2 v3 : R) :
  (u2*v3 - u3*v2) * (u2*v3 - u3*v2) + (u3*v1 - u1*v3) * (u3*v1 - u1*v3)
  + (u1*v2 - u2*v1) * (u1*v2 - u2*v1)
  + (u1*v1 + u2*v2 + u3*v3) * (u1*v1 + u2*v2 + u3*v3)
  = (u1*u1 + u2*u2 + u3*u3) * (v1*v1 + v2*v2 + v3*v3).
Proof. ring. Qed.

Lemma cauchy_schwarz (u1 u2 u3 v1 v2 v3 : R) :
  Rabs (u1*v1 + u2*v2 + u3*v3)
  <= sqrt (u1*u1 + u2*u2 + u3*u3) * sqrt (v1*v1 + v2*v2 + v3*v3).
Proof.
  rewrite <- sqrt_mult by apply sum_squares_nonneg.
  rewrite <- sqrt_Rsqr_abs. apply sqrt_le_1_alt. unfold Rsqr.
  rewrite <- lagrange.
  pose proof (sum_squares_nonneg (u2*v3 - u3*v2) (u3*v1 - u1*v3) (u1*v2 - u2*v1)).
  lra.
Qed.



(** ** The angle of two vectors *)

Lemma norm3_pos (x y z : R) :
  [x; y; z] <> [0; 0; 0] -> 0 < sqrt (x*x + y*y + z*z).
Proof.
  intro H. pose proof (sqrt_pos (x*x + y*y + z*z)) as P.
  pose proof (proj1 (norm3_zero_iff x y z)) as Z.
  destruct (Req_dec_T (sqrt (x*x + y*y + z*z)) 0) as [E|N]; [|lra].
  exfalso. apply H, Z, E.
Qed.

(** Over the reals the quotient of [angle] is already in [-1, 1]. *)
Lemma cosine_in_range (u1 u2 u3 v1 v2 v3 : R) :
  [u1; u2; u3] <> [0; 0; 0] -> [v1; v2; v3] <> [0; 0; 0] ->
  -1 <= (u1*v1 + u2*v2 + u3*v3) / sqrt (u1*u1 + u2*u2 + u3*u3)
                                / sqrt (v1*v1 + v2*v2 + v3*v3) <= 1.
Proof.
  intros Hu Hv.
  pose proof (norm3_pos _ _ _ Hu) as Pu. pose proof (norm3_pos _ _ _ Hv) as Pv.
  pose proof (cauchy_schwarz u1 u2 u3 v1 v2 v3) as CS.
  set (d := u1*v1 + u2*v2 + u3*v3) in *.
  set (nu := sqrt (u1*u1 + u2*u2 + u3*u3)) in *.
  set (nv := sqrt (v1*v1 + v2*v2 + v3*v3)) in *.
  assert (E : d / nu / nv * (nu * nv) = d) by (field; lra).
  assert (P : 0 < nu * nv) by (apply Rmult_lt_0_compat; assumption).
  unfold Rabs in CS. destruct (Rcase_abs d); split; nra.
Qed.

(** X4. For nonzero vectors of three numbers the clamp of [angle] changes
    nothing over the reals, and the angle [a] that is returned satisfies
    [dot(u,v) = norm(u) * norm(v) * cos(a)] and
    [norm(u x v) = norm(u) * norm(v) * sin(a)]. *)
Theorem X4_angle_cosine_sine (u v : Vector.t) :
  length u = 3%nat -> length v = 3%nat ->
  u <> [0; 0; 0] -> v <> [0; 0; 0] ->
  exists a d w nu nv nw,
    Vector.angle u v = Ok a /\
    Vector.dot u v = Ok d /\ Vector.cross u v = Ok w /\
    Vector.norm u = Ok nu /\ Vector.norm v = Ok nv /\ Vector.norm w = Ok nw /\
    Vector.clamp (d / nu / nv) = d / nu / nv /\
    d = nu * nv * cos a /\
    nw = nu * nv * sin a.
Proof.
  intros Lu Lv Hu Hv.
  destruct (length3_inv u Lu) as (u1 & u2 & u3 & ->).
  destruct (length3_inv v Lv) as (v1 & v2 & v3 & ->).
  pose proof (cosine_in_range _ _ _ _ _ _ Hu Hv) as Hr.
  pose proof (norm3_pos _ _ _ Hu) as Pu. pose proof (norm3_pos _ _ _ Hv) as Pv.
  eexists _, _, _, _, _, _.
  split; [apply angle3; assumption|].
  split; [apply dot3|]. split; [reflexivity|].
  split; [apply norm3|]. split; [apply norm3|]. split; [apply norm3|].
  split; [apply clamp_id, Hr|].
  rewrite (clamp_id _ Hr).
  set (d := u1*v1 + u2*v2 + u3*v3) in *.
  set (nu := sqrt (u1*u1 + u2*u2 + u3*u3)) in *.
  set (nv := sqrt (v1*v1 + v2*v2 + v3*v3)) in *.
  assert (Hc : d = nu * nv * cos (acos (d / nu / nv))).
  { rewrite cos_acos by exact Hr. field. lra. }
  split; [exact Hc|].
  apply sqrt_lem_1.
  - apply sum_squares_nonneg.
  - pose proof (acos_bound (d / nu / nv)) as [B1 B2].
    pose proof (sin_ge_0 _ B1 B2).
    apply Rmult_le_pos; [|assumption]. apply Rmult_le_pos; lra.
  - pose proof (sin2_cos2 (acos (d / nu / nv))) as T. unfold Rsqr in T.
    pose proof (lagrange u1 u2 u3 v1 v2 v3) as L. fold d in L.
    assert (Su : nu * nu = u1*u1 + u2*u2 + u3*u3)
      by (apply sqrt_sqrt, sum_squares_nonneg).
    assert (Sv : nv * nv = v1*v1 + v2*v2 + v3*v3)
      by (apply sqrt_sqrt, sum_squares_nonneg).
    rewrite <- Su, <- Sv in L.
    set (c := cos (acos (d / nu / nv))) in *.
    set (s := sin (acos (d / nu / nv))) in *.
    nsatz.
Qed.

Lemma X4_angle_cosine_sine_witness :
  exists a d nu nv,
    Vector.angle [4; 7; 5] [3; 5; 8] = Ok a /\
    Vector.dot [4; 7; 5] [3; 5; 8] = Ok d /\
    Vector.norm [4; 7; 5] = Ok nu /\ Vector.norm [3; 5; 8] = Ok nv /\
    d = nu * nv * cos a.
Proof.
  destruct (X4_angle_cosine_sine [4; 7; 5] [3; 5; 8])
    as (a & d & w & nu & nv & nw & Ha & Hd & _ & Hu & Hv & _ & _ & Hc & _).
  - reflexivity.
  - reflexivity.
  - nonzero3.
  - nonzero3.
  - now exists a, d, nu, nv.
Defined.










(** ** Norm and arithmetic of vectors *)









(** X13. The binary operations check their operands by unpacking: when both
    lists hold three numbers, [cross], [+], [+=], [-] and [-=] return a list
    of three numbers and [dot] returns; when one of them does not, all of
    them, and [angle] and [oriented_angle] with them, raise [ValueError]. *)
Theorem X13_wrong_length (u v : Vector.t) :
  (length u = 3%nat /\ length v = 3%nat ->
   (exists d, Vector.dot u v = Ok d) /\
   Forall (fun op : Vector.t -> Vector.t -> result Vector.t =>
             exists w, op u v = Ok w /\ length w = 3%nat)
          [Vector.cross; Vector.__add__; Vector.__iadd__;
           Vector.__sub__; Vector.__isub__]) /\
  (length u <> 3%nat \/ length v <> 3%nat ->
   Vector.dot u v = Raise ValueError /\
   Vector.angle u v = Raise ValueError /\
   (forall normal, Vector.oriented_angle u v normal = Raise ValueError) /\
   Forall (fun op : Vector.t -> Vector.t -> result Vector.t =>
             op u v = Raise ValueError)
          [Vector.cross; Vector.__add__; Vector.__iadd__;
           Vector.__sub__; Vector.__isub__]).
Proof.
  split.
  - intros [Lu Lv].
    destruct (length3_inv u Lu) as (u1 & u2 & u3 & ->).
    destruct (length3_inv v Lv) as (v1 & v2 & v3 & ->).
    split; [eexists; apply dot3|].
    repeat constructor; eexists; split; reflexivity.
  - intro H.
    destruct u as [|u1 [|u2 [|u3 [|u4 u]]]];
      destruct v as [|v1 [|v2 [|v3 [|v4 v]]]];
      try (exfalso; simpl in H; lia);
      (split; [reflexivity|]; split; [reflexivity|];
       split; [intro; reflexivity|]; repeat constructor).
Qed.

Lemma X13_wrong_length_witness :
  Vector.dot [1; 2] [3; 4; 5] = Raise ValueError /\
  exists d, Vector.dot [1; 2; 3] [3; 4; 5] = Ok d.
Proof.
  split.
  - apply (proj2 (X13_wrong_length [1; 2] [3; 4; 5])). left. simpl. lia.
  - apply (proj1 (X13_wrong_length [1; 2; 3] [3; 4; 5])). split; reflexivity.
Defined.

Lemma fold_max_ge_init (l : list R) (x : R) : x <= fold_left Py.max l x.
Proof.
  revert x. induction l as [|y l IH]; intro x; simpl; [lra|].
  eapply Rle_trans; [|apply IH]. rewrite py_max_Rmax. apply Rmax_l.
Qed.

Lemma fold_max_ge (l : list R) (x c : R) : In c l -> c <= fold_left Py.max l x.
Proof.
  revert x. induction l as [|y l IH]; intros x H; simpl in *; [tauto|].
  destruct H as [->|H]; [|now apply IH].
  eapply Rle_trans; [|apply fold_max_ge_init]. rewrite py_max_Rmax. apply Rmax_r.
Qed.

(** X14. [abs(u)] does not unpack: it raises [ValueError] on the empty list
    only, and on any other list, of whatever length, returns one of its
    items, one that no item exceeds and that does not exceed the Chebyshev
    norm; it equals that norm exactly when the result is at least the
    magnitude of every item. *)
Theorem X14_abs_any_length (u : Vector.t) :
  (u = [] -> Vector.__abs__ u = Raise ValueError) /\
  (u <> [] ->
   exists m, Vector.__abs__ u = Ok m /\ In m u /\
             (forall c, In c u -> c <= m) /\
             m <= Vector.chebyshev u /\
             (m = Vector.chebyshev u <-> forall c, In c u -> Rabs c <= m)).
Proof.
  split; [intros ->; reflexivity|].
  intro H. destruct u as [|x l]; [contradiction|].
  exists (fold_left Py.max l x).
  assert (Hin : In (fold_left Py.max l x) (x :: l)) by apply fold_max_in.
  assert (Hub : forall c, In c (x :: l) -> c <= fold_left Py.max l x).
  { intros c [<-|Hc]; [apply fold_max_ge_init | now apply fold_max_ge]. }
  assert (Hle : fold_left Py.max l x <= Vector.chebyshev (x :: l)).
  { eapply Rle_trans; [apply Rle_abs | apply chebyshev_ge, Hin]. }
  repeat split; try assumption.
  - intros E c Hc. rewrite E. now apply chebyshev_ge.
  - intro Hall. apply Rle_antisym; [exact Hle|].
    assert (G : forall w : Vector.t,
               (forall c, In c w -> Rabs c <= fold_left Py.max l x) ->
               0 <= fold_left Py.max l x ->
               Vector.chebyshev w <= fold_left Py.max l x).
    { induction w as [|y w IH]; simpl; intros Hw P; [exact P|].
      apply Rmax_lub; [apply Hw; now left|]. apply IH; [|exact P].
      intros c Hc. apply Hw. now right. }
    apply G; [exact Hall|].
    eapply Rle_trans; [apply Rabs_pos | apply (Hall x); now left].
Qed.

Lemma X14_abs_any_length_witness :
  Vector.__abs__ [] = Raise ValueError /\
  exists m, Vector.__abs__ [3; -7] = Ok m /\ In m [3; -7] /\
            m <= Vector.chebyshev [3; -7].
Proof.
  split.
  - apply (proj1 (X14_abs_any_length [])). reflexivity.
  - destruct (proj2 (X14_abs_any_length [3; -7])) as (m & Hm & Hin & _ & Hle & _).
    + discriminate.
    + exists m. repeat split; assumption.
Defined.

(** * Products of matrices *)

Lemma mul_vector_entries (k1 k2 k3 k : kind) (a b c d e f g h i x y z : R) :
  Matrix.mul_vector [Row k1 [a; b; c]; Row k2 [d; e; f]; Row k3 [g; h; i]]
                    (Row k [x; y; z])
  = Ok [a*x + b*y + c*z; d*x + e*y + f*z; g*x + h*y + i*z].
Proof. reflexivity. Qed.

Lemma dunder_mul_vector_entries (k1 k2 k3 k : kind)
      (a b c d e f g h i x y z : R) :
  Matrix.__mul__ [Row k1 [a; b; c]; Row k2 [d; e; f]; Row k3 [g; h; i]]
                 (Itm (Row k [x; y; z]))
  = Ok (Itm (Row KVector
               [a*x + b*y + c*z; d*x + e*y + f*z; g*x + h*y + i*z])).
Proof. reflexivity. Qed.


Ltac matrix3 A H :=
  let k1 := fresh "k" in let k2 := fresh "k" in let k3 := fresh "k" in
  let a := fresh "a" in let b := fresh "b" in let c := fresh "c" in
  let d := fresh "d" in let e := fresh "e" in let f := fresh "f" in
  let g := fresh "g" in let h := fresh "h" in let i := fresh "i" in
  destruct (wf_inv A H)
    as (k1 & a & b & c & k2 & d & e & f & k3 & g & h & i & ->).

Ltac entries_eq :=
  cbv [Matrix.entries Matrix.identity map];
  repeat match goal with
         | |- _ :: _ = _ :: _ => apply f_equal2
         | |- [] = [] => reflexivity
         end.

(** X15. [identity] is neutral for the product: for a matrix [A] of three
    rows of three numbers, [identity * A] and [A * identity] return the
    entries of [A], and [identity * v] returns [v] for a vector of three
    numbers. *)
Theorem X15_identity_neutral (A : Matrix.t) (k : kind) (v : Vector.t) :
  Matrix.wf A = true -> length v = 3%nat ->
  (exists P, Matrix.mul Matrix.identity A = Ok P /\
             Matrix.entries P = Matrix.entries A) /\
  (exists P, Matrix.mul A Matrix.identity = Ok P /\
             Matrix.entries P = Matrix.entries A) /\
  Matrix.__mul__ Matrix.identity (Itm (Row k v)) = Ok (Itm (Row KVector v)).
Proof.
  intros HA Lv. matrix3 A HA.
  destruct (length3_inv v Lv) as (x & y & z & ->).
  unfold Matrix.identity. rewrite !mul_entries.
  split; [|split].
  - eexists. split; [reflexivity|]. entries_eq; ring.
  - eexists. split; [reflexivity|]. entries_eq; ring.
  - rewrite dunder_mul_vector_entries. do 3 f_equal. items; ring.
Qed.

Lemma X15_identity_neutral_witness :
  exists P,
    Matrix.mul Matrix.identity
               [Row KList [1; 2; 3]; Row KList [4; 5; 6]; Row KList [7; 8; 9]]
    = Ok P /\
    Matrix.entries P = [[1; 2; 3]; [4; 5; 6]; [7; 8; 9]].
Proof.
  apply (X15_identity_neutral
           [Row KList [1; 2; 3]; Row KList [4; 5; 6]; Row KList [7; 8; 9]]
           KList [1; 2; 3]); reflexivity.
Defined.





Lemma abs_sub_max (A B : Matrix.t) :
  Matrix.wf A = true -> Matrix.wf B = true ->
  exists D d,
    Matrix.__sub__ A B = Ok D /\ Matrix.__abs__ D = Ok d /\
    In d (differences A B) /\
    (forall x, In x (differences A B) -> x <= d).
Proof.
  intros HA HB. matrix3 A HA. matrix3 B HB.
  rewrite sub_entries. eexists _, _. split; [reflexivity|].
  split; [reflexivity|].
  cbv [differences Matrix.entries map concat app combine fst snd Py.max_iter].
  split; [apply fold_max_in|].
  intros x [<-|Hx]; [apply fold_max_ge_init | now apply fold_max_ge].
Qed.

(** X18. [abs(A - B)] is the Chebyshev distance of two matrices of three
    rows of three numbers: both calls return, the result is the largest
    magnitude of an entrywise difference, and it is 0 exactly when [A] and
    [B] have the same entries. *)
Theorem X18_abs_sub_distance (A B : Matrix.t) :
  Matrix.wf A = true -> Matrix.wf B = true ->
  exists D d,
    Matrix.__sub__ A B = Ok D /\ Matrix.__abs__ D = Ok d /\
    In d (differences A B) /\
    (forall x, In x (differences A B) -> x <= d) /\
    (d = 0 <-> Matrix.entries A = Matrix.entries B).
Proof.
  intros HA HB. matrix3 A HA. matrix3 B HB.
  rewrite sub_entries. eexists _, _. split; [reflexivity|].
  split; [reflexivity|].
  cbv [differences Matrix.entries map concat app combine fst snd Py.max_iter].
  set (x0 := Rabs (a - a0)).
  set (l := [Rabs (b - b0); Rabs (c - c0); Rabs (d - d0); Rabs (e - e0);
             Rabs (f - f0); Rabs (g - g0); Rabs (h - h0); Rabs (i - i0)]).
  assert (Hub : forall x, In x (x0 :: l) -> x <= fold_left Py.max l x0).
  { intros x [<-|Hx]; [apply fold_max_ge_init | now apply fold_max_ge]. }
  split; [apply fold_max_in|]. split; [exact Hub|].
  split.
  - intro Z. rewrite Z in Hub.
    assert (P : forall x y, In (Rabs (x - y)) (x0 :: l) -> x = y).
    { intros x y Hin. specialize (Hub _ Hin).
      pose proof (Rabs_pos (x - y)).
      assert (E : Rabs (x - y) = 0) by lra.
      destruct (Req_dec_T (x - y) 0) as [E0|N0]; [lra|].
      apply Rabs_no_R0 in N0. contradiction. }
    unfold x0, l in P.
    repeat (apply f_equal2; [|try reflexivity]);
      apply P; simpl; tauto.
  - intro E. injection E as -> -> -> -> -> -> -> -> ->.
    assert (Z : forall x, In x (x0 :: l) -> x = 0).
    { unfold x0, l. simpl. intros x Hx.
      repeat destruct Hx as [<-|Hx]; try contradiction;
        rewrite Rminus_diag; apply Rabs_R0. }
    apply Z, fold_max_in.
Qed.

Lemma X18_abs_sub_distance_witness :
  exists D d,
    Matrix.__sub__ Matrix.identity Matrix.identity = Ok D /\
    Matrix.__abs__ D = Ok d /\ d = 0.
Proof.
  destruct (X18_abs_sub_distance Matrix.identity Matrix.identity eq_refl eq_refl)
    as (D & d & HD & Hd & _ & _ & Hz).
  exists D, d. repeat split; try assumption. now apply Hz.
Defined.

Lemma matrix_abs_vector_rows (r1 r2 r3 : list R) (m1 m2 m3 : R) :
  Vector.__abs__ r1 = Ok m1 -> Vector.__abs__ r2 = Ok m2 ->
  Vector.__abs__ r3 = Ok m3 ->
  Matrix.__abs__ [Row KVector r1; Row KVector r2; Row KVector r3]
  = Ok (fold_left Py.max [m2; m3] m1).
Proof.
  intros H1 H2 H3. cbv [Matrix.__abs__ mapM Matrix.abs_item].
  rewrite H1, H2, H3. reflexivity.
Qed.

Lemma abs_upper (u : Vector.t) (m x : R) :
  Vector.__abs__ u = Ok m -> In x u -> x <= m.
Proof.
  destruct u as [|y l]; simpl; intros H Hx; [discriminate|].
  injection H as <-. destruct Hx as [<-|Hx];
    [apply fold_max_ge_init | now apply fold_max_ge].
Qed.

(** X19. [abs] of a matrix works only on rows that are [Vector]s: it raises
    [TypeError] on what [identity], [rotation] and [from_euler_angles] build
    (rows that are plain lists) and [ValueError] on the empty matrix; on a
    product of two matrices, whose rows are [Vector]s, it returns the largest
    entry, sign included. *)
Theorem X19_matrix_abs :
  Matrix.__abs__ [] = Raise ValueError /\
  Matrix.__abs__ Matrix.identity = Raise TypeError /\
  (forall alpha beta gamma,
      Matrix.__abs__ (Matrix.from_euler_angles alpha beta gamma)
      = Raise TypeError) /\
  (forall theta x y z M,
      Matrix.rotation theta x y z = Ok M ->
      Matrix.__abs__ M = Raise TypeError) /\
  (forall A B, Matrix.wf A = true -> Matrix.wf B = true ->
      exists P m, Matrix.mul A B = Ok P /\ Matrix.__abs__ P = Ok m /\
                  In m (concat (Matrix.entries P)) /\
                  forall x, In x (concat (Matrix.entries P)) -> x <= m).
Proof.
  split; [reflexivity|]. split; [reflexivity|]. split; [reflexivity|].
  split.
  - intros theta x y z M H. unfold Matrix.rotation in H.
    destruct (math.sqrt _) as [d|]; [|discriminate]. cbv [bind] in H.
    repeat (destruct (Py.truediv _ d); [|discriminate]).
    injection H as <-. reflexivity.
  - intros A B HA HB. matrix3 A HA. matrix3 B HB.
    rewrite mul_entries.
    match goal with
    | |- context [Ok [Row KVector ?r1; Row KVector ?r2; Row KVector ?r3]] =>
        set (row1 := r1); set (row2 := r2); set (row3 := r3)
    end.
    destruct (Vector.__abs__ row1) as [m1|] eqn:E1; [|discriminate].
    destruct (Vector.__abs__ row2) as [m2|] eqn:E2; [|discriminate].
    destruct (Vector.__abs__ row3) as [m3|] eqn:E3; [|discriminate].
    eexists _, _. split; [reflexivity|].
    split; [apply (matrix_abs_vector_rows _ _ _ _ _ _ E1 E2 E3)|].
    change (concat (Matrix.entries
                      [Row KVector row1; Row KVector row2; Row KVector row3]))
      with (row1 ++ row2 ++ row3 ++ []).
    rewrite app_nil_r. split.
    + destruct (fold_max_in [m2; m3] m1) as [<-|[<-|[<-|[]]]];
        rewrite !in_app_iff; eauto using abs_in.
    + intros x Hx. rewrite !in_app_iff in Hx.
      destruct Hx as [Hx|[Hx|Hx]].
      * eapply Rle_trans; [apply (abs_upper _ _ _ E1 Hx)|].
        apply fold_max_ge_init.
      * eapply Rle_trans; [apply (abs_upper _ _ _ E2 Hx)|].
        apply fold_max_ge. simpl. auto.
      * eapply Rle_trans; [apply (abs_upper _ _ _ E3 Hx)|].
        apply fold_max_ge. simpl. auto.
Qed.

Lemma X19_matrix_abs_witness :
  exists P m, Matrix.mul Matrix.identity Matrix.identity = Ok P /\
              Matrix.__abs__ P = Ok m /\ In m (concat (Matrix.entries P)).
Proof.
  destruct (proj2 (proj2 (proj2 (proj2 X19_matrix_abs)))
              Matrix.identity Matrix.identity eq_refl eq_refl)
    as (P & m & HP & Hm & Hin & _).
  now exists P, m.
Defined.

(** * Rotations *)











(** X24. The loop of [src/tests.py] on rotations about the z axis, for every
    input: for an angle [theta] in [0, PI] and a vector [u = [x, y, 0]] other
    than (0,0,0), [v = rotation(theta, 0, 0, 1) * u] makes with [u] the angle
    [theta] exactly. *)
Theorem X24_rotation_z_angle (theta x y : R) (k : kind) :
  0 <= theta <= PI -> [x; y; 0] <> [0; 0; 0] ->
  exists M v,
    Matrix.rotation theta 0 0 1 = Ok M /\
    Matrix.__mul__ M (Itm (Row k [x; y; 0])) = Ok (Itm (Row KVector v)) /\
    Vector.angle [x; y; 0] v = Ok theta.
Proof.
  intros Ht Hu. eexists _, _.
  split; [apply rotation_z|].
  split; [apply dunder_mul_vector_entries|].
  pose proof (sin_cos_one theta) as T.
  pose proof (COS_bound theta) as B.
  pose proof (norm3_pos _ _ _ Hu) as P.
  pose proof (sqrt_sqrt _ (sum_squares_nonneg x y 0)) as S.
  assert (Hn : forall C S : R, C * C + S * S = 1 ->
             (C*x + - S*y + 0*0) * (C*x + - S*y + 0*0)
             + (S*x + C*y + 0*0) * (S*x + C*y + 0*0)
             + (0*x + 0*y + 1*0) * (0*x + 0*y + 1*0)
             = x*x + y*y + 0*0).
  { intros C S0 E. nsatz. }
  assert (Hv : [cos theta * x + - sin theta * y + 0 * 0;
                sin theta * x + cos theta * y + 0 * 0;
                0 * x + 0 * y + 1 * 0] <> [0; 0; 0]).
  { intro E. apply norm3_zero_iff in E. rewrite (Hn _ _ T) in E. lra. }
  rewrite angle3 by assumption. rewrite (Hn _ _ T).
  set (n := sqrt (x*x + y*y + 0*0)) in *.
  replace ((x * (cos theta * x + - sin theta * y + 0 * 0)
            + y * (sin theta * x + cos theta * y + 0 * 0)
            + 0 * (0 * x + 0 * y + 1 * 0)) / n / n) with (cos theta).
  - rewrite clamp_id by exact B. now rewrite acos_cos.
  - replace (x * (cos theta * x + - sin theta * y + 0 * 0)
             + y * (sin theta * x + cos theta * y + 0 * 0)
             + 0 * (0 * x + 0 * y + 1 * 0))
      with (cos theta * (n * n)) by (rewrite S; ring).
    field. lra.
Qed.

Lemma X24_rotation_z_angle_witness :
  exists M v,
    Matrix.rotation (PI / 2) 0 0 1 = Ok M /\
    Matrix.__mul__ M (Itm (Row KList [1; 1; 0])) = Ok (Itm (Row KVector v)) /\
    Vector.angle [1; 1; 0] v = Ok (PI / 2).
Proof.
  apply (X24_rotation_z_angle (PI / 2) 1 1 KList).
  - pose proof PI_RGT_0. lra.
  - nonzero3.
Defined.


(** * The helpers of [src/tests.py] *)

Lemma checkdiff_3x3 (a b c d e f g h i a' b' c' d' e' f' g' h' i' : R) :
  Tests.checkdiff [[a; b; c]; [d; e; f]; [g; h; i]]
                  [[a'; b'; c']; [d'; e'; f']; [g'; h'; i']] = Some true <->
  (forall x,
      In x [Rabs (a - a'); Rabs (b - b'); Rabs (c - c');
            Rabs (d - d'); Rabs (e - e'); Rabs (f - f');
            Rabs (g - g'); Rabs (h - h'); Rabs (i - i')] -> x <= 1e-10).
Proof.
  cbv [Tests.checkdiff Tests.range3x3 Tests.checkdiff_from flat_map map seq app
       nth_error].
  split.
  - intros H x Hx.
    repeat match type of H with
           | (if ?c then _ else _) = _ => destruct c; [discriminate|]
           end.
    simpl in Hx.
    repeat destruct Hx as [<-|Hx]; try contradiction; lra.
  - intro H.
    repeat match goal with
           | |- (if ?c then _ else _) = _ =>
               destruct c as [L|_];
               [exfalso; apply Rlt_not_le in L; apply L, H; simpl; tauto|]
           end.
    reflexivity.
Qed.

(** X26. [checkdiff] on two matrices of three rows of three numbers never
    raises; it returns [True] exactly when no entry of one differs from the
    entry of the other by more than 1e-10, which is when [abs(A - B)] is at
    most 1e-10; it is reflexive and symmetric. *)
Theorem X26_checkdiff (A B : Matrix.t) :
  Matrix.wf A = true -> Matrix.wf B = true ->
  let eA := Matrix.entries A in
  let eB := Matrix.entries B in
  (Tests.checkdiff eA eB = Some true \/ Tests.checkdiff eA eB = Some false) /\
  (Tests.checkdiff eA eB = Some true <->
   forall x, In x (differences A B) -> x <= 1e-10) /\
  (Tests.checkdiff eA eB = Some true <->
   exists D d, Matrix.__sub__ A B = Ok D /\ Matrix.__abs__ D = Ok d /\
               d <= 1e-10) /\
  (Tests.checkdiff eA eB = Some true <-> Tests.checkdiff eB eA = Some true) /\
  Tests.checkdiff eA eA = Some true.
Proof.
  intros HA HB eA eB.
  destruct (abs_sub_max A B HA HB) as (D & d & HD & Hd & Hin & Hub).
  assert (Hspec : Tests.checkdiff eA eB = Some true <->
                  forall x, In x (differences A B) -> x <= 1e-10).
  { unfold eA, eB. matrix3 A HA. matrix3 B HB. apply checkdiff_3x3. }
  split; [|split; [exact Hspec|split; [|split]]].
  - unfold eA, eB. matrix3 A HA. matrix3 B HB.
    cbv [Tests.checkdiff Tests.range3x3 Tests.checkdiff_from flat_map map seq
         app nth_error Matrix.entries].
    repeat match goal with
           | |- (if ?c then _ else _) = _ \/ _ => destruct c; [now right|]
           end.
    now left.
  - rewrite Hspec. split.
    + intro H. exists D, d. repeat split; try assumption. now apply H.
    + intros (D' & d' & HD' & Hd' & Le) x Hx.
      rewrite HD in HD'. injection HD' as <-.
      rewrite Hd in Hd'. injection Hd' as <-.
      eapply Rle_trans; [apply Hub, Hx | exact Le].
  - unfold eA, eB. matrix3 A HA. matrix3 B HB.
    cbv [Matrix.entries map]. rewrite !checkdiff_3x3.
    split; intros H x Hx; apply H; simpl in Hx;
      repeat destruct Hx as [<-|Hx]; try contradiction;
      rewrite Rabs_minus_sym; simpl; tauto.
  - unfold eA. matrix3 A HA. cbv [Matrix.entries map].
    apply checkdiff_3x3. intros x Hx. simpl in Hx.
    repeat destruct Hx as [<-|Hx]; try contradiction;
      rewrite Rminus_diag, Rabs_R0; lra.
Qed.

Lemma X26_checkdiff_witness :
  Tests.checkdiff (Matrix.entries Matrix.identity)
                  (Matrix.entries Matrix.identity) = Some true.
Proof.
  apply (X26_checkdiff Matrix.identity Matrix.identity eq_refl eq_refl).
Defined.





(** X28. [check_val(a, b)] is a one-sided test.  For a reference value
    [a > 0] it passes exactly when [|a - b| < 1e-6 * a]; for [a = 0] it
    passes exactly when [b < 1e-6], so for every negative [b]; and for
    [a < 0] it passes for every [b], the quotient [|a - b| / a] being at most
    zero. *)
Theorem X28_check_val (a b : R) :
  (0 < a -> (Tests.check_val a b = true <-> Rabs (a - b) < 1e-6 * a)) /\
  (a = 0 -> (Tests.check_val a b = true <-> b < 1e-6)) /\
  (a < 0 -> Tests.check_val a b = true).
Proof.
  unfold Tests.check_val. split; [|split].
  - intro P. destruct (Req_dec_T a 0) as [E|_]; [lra|].
    assert (Q : Rabs (a - b) / a < 1e-6 <-> Rabs (a - b) < 1e-6 * a).
    { split; intro H.
      - replace (Rabs (a - b)) with (Rabs (a - b) / a * a) by (field; lra).
        apply Rmult_lt_compat_r; assumption.
      - apply Rmult_lt_reg_r with a; [exact P|].
        replace (Rabs (a - b) / a * a) with (Rabs (a - b)) by (field; lra).
        exact H. }
    destruct (Rlt_dec (Rabs (a - b) / a) 1e-6) as [L|L].
    + split; [intros _; now apply Q | reflexivity].
    + split; [discriminate|]. intro H. apply Q in H. contradiction.
  - intros ->. destruct (Req_dec_T 0 0) as [_|N]; [|contradiction].
    destruct (Rlt_dec b 1e-6); split; try reflexivity; try discriminate;
      try (intros; assumption). intro; contradiction.
  - intro N. destruct (Req_dec_T a 0) as [E|_]; [lra|].
    destruct (Rlt_dec (Rabs (a - b) / a) 1e-6) as [_|L]; [reflexivity|].
    exfalso. apply L.
    pose proof (Rabs_pos (a - b)) as P.
    assert (Q : Rabs (a - b) / a <= 0).
    { unfold Rdiv. replace 0 with (Rabs (a - b) * 0) by ring.
      apply Rmult_le_compat_l; [exact P|].
      left. now apply Rinv_lt_0_compat. }
    lra.
Qed.

Lemma X28_check_val_witness :
  Tests.check_val (-1) 1000 = true /\ Tests.check_val 0 (-1000) = true.
Proof.
  split.
  - apply (proj2 (proj2 (X28_check_val (-1) 1000))). lra.
  - apply (proj1 (proj2 (X28_check_val 0 (-1000))) eq_refl). lra.
Defined.

(** * The interactive builder *)

Section InteractFacts.

Variable value : Type.
Variable exc : Type.
Variable eval : String.string -> exc + value.
Variable int : Z -> value.
Variable eq_int : value -> Z -> bool.
Variable none : value.
Variable Kerbin : value.

#[local] Abbreviation IO := (Interact.IO exc).
#[local] Abbreviation ask := (Interact.ask value exc eval).
#[local] Abbreviation answered := (Interact.answered value exc eval).
#[local] Abbreviation ask_orbit :=
  (Interact.ask_orbit value exc eval int eq_int none Kerbin).

Lemma iobind_inr {A B : Type} (m : IO A) (k : A -> IO B)
      (c c' : Interact.console) (r : B) :
  Interact.iobind exc m k c = (c', inr r) ->
  exists c1 a, m c = (c1, inr a) /\ k a c1 = (c', inr r).
Proof.
  unfold Interact.iobind. destruct (m c) as [c1 [e|a]]; [discriminate|].
  intro H. now exists c1, a.
Qed.

Lemma print_inr (s : String.string) (c c' : Interact.console) (u : unit) :
  Interact.print exc s c = (c', inr u) ->
  Interact.stdin c' = Interact.stdin c.
Proof. unfold Interact.print. intro H. now injection H as <- _. Qed.

Lemma ask_inr (p : String.string) (d v : value) (c c' : Interact.console) :
  ask p d c = (c', inr v) ->
  exists line, Interact.stdin c = line :: Interact.stdin c' /\
               answered line d v.
Proof.
  unfold Interact.ask, Interact.iobind, Interact.input.
  destruct (Interact.stdin c) as [|line rest]; [discriminate|].
  destruct (String.eqb line String.EmptyString) eqn:E.
  - apply String.eqb_eq in E. intro H. injection H as <- <-.
    exists line. split; [reflexivity|]. now left.
  - apply String.eqb_neq in E.
    destruct (eval line) as [e|v'] eqn:Ev; [discriminate|].
    intro H. injection H as <- <-.
    exists line. split; [reflexivity|]. now right.
Qed.

Hypothesis eq_int_exclusive :
  forall v n m, eq_int v n = true -> eq_int v m = true -> n = m.

(** One statement of a successful run: the console advances by the line that
    [ask] read, or not at all for [print]. *)
Ltac io_step H Acc :=
  apply iobind_inr in H;
  let c1 := fresh "c" in
  let a := fresh "a" in
  let B := fresh "B" in
  destruct H as (c1 & a & B & H);
  first [ apply ask_inr in B;
          let l := fresh "line" in
          let S := fresh "S" in
          let An := fresh "An" in
          destruct B as (l & S & An); rewrite S in Acc; clear S
        | apply print_inr in B; rewrite <- B in Acc; clear B ].

Ltac io_ret H :=
  unfold Interact.ret in H; injection H as <- <-.

Ltac io_call H :=
  unfold Interact.ret in H; injection H as <- <- <-.

(** The statements after the shape: two prints, three asks, a print, two
    asks and the call. *)
Ltac io_tail H Acc :=
  do 8 io_step H Acc; cbv zeta in H; simpl fst in H.

(** X29. A run of [ask_orbit] that returns has read nine lines, and its
    call is one of five: the choice [n] among 1..5 that the second line
    selects (1 when the line is empty) fixes the callable and the keyword
    arguments, which are [primary], the two shape arguments of the branch
    and the five of the plane and position.  Choice 5 calls [from_period], as
    choice 4 does, with [period] and [apsis] and no eccentricity. *)
Theorem X29_ask_orbit_call (c c' : Interact.console)
        (ctor : Interact.constructor) (args : Interact.dict value) :
  ask_orbit c = (c', inr (ctor, args)) ->
  exists (n : Z) (shape lines : list String.string) (choice : value),
    In (n, (ctor, shape)) Interact.branches /\
    map fst args = "primary"%string :: shape ++ Interact.plane_keys /\
    Interact.stdin c = lines ++ Interact.stdin c' /\
    length lines = 9%nat /\
    answered (nth 1 lines String.EmptyString) (int 1) choice /\
    eq_int choice n = true.
Proof.
  intro H. unfold Interact.ask_orbit in H.
  remember (Interact.stdin c) as s0 eqn:Acc.
  do 9 io_step H Acc. cbv zeta in H.
  rename a7 into choice.
  apply iobind_inr in H. destruct H as (c9 & st1 & B1 & H).
  apply iobind_inr in H. destruct H as (c10 & st2 & B2 & H).
  unfold Interact.shape_if in B1. unfold Interact.shape_elif in B2.
  destruct (eq_int choice 1) eqn:E1.
  - assert (E2 : eq_int choice 2 = false).
    { destruct (eq_int choice 2) eqn:E; [|reflexivity].
      now pose proof (eq_int_exclusive _ _ _ E1 E). }
    assert (E3 : eq_int choice 3 = false).
    { destruct (eq_int choice 3) eqn:E; [|reflexivity].
      now pose proof (eq_int_exclusive _ _ _ E1 E). }
    assert (E4 : eq_int choice 4 = false).
    { destruct (eq_int choice 4) eqn:E; [|reflexivity].
      now pose proof (eq_int_exclusive _ _ _ E1 E). }
    assert (E5 : eq_int choice 5 = false).
    { destruct (eq_int choice 5) eqn:E; [|reflexivity].
      now pose proof (eq_int_exclusive _ _ _ E1 E). }
    rewrite E2, E3, E4, E5 in B2.
    do 2 io_step B1 Acc. io_ret B1. io_ret B2. io_tail H Acc. io_call H.
    eexists 1%Z, _, [_; _; _; _; _; _; _; _; _], choice.
    split; [simpl; auto|]. split; [reflexivity|].
    split; [exact Acc|]. split; [reflexivity|]. split; assumption.
  - io_ret B1. simpl snd in B2.
    destruct (eq_int choice 2) eqn:E2;
      [|destruct (eq_int choice 3) eqn:E3;
        [|destruct (eq_int choice 4) eqn:E4;
          [|destruct (eq_int choice 5) eqn:E5]]].
    + do 2 io_step B2 Acc. io_ret B2. io_tail H Acc. io_call H.
      eexists 2%Z, _, [_; _; _; _; _; _; _; _; _], choice.
      split; [simpl; auto|]. split; [reflexivity|].
      split; [exact Acc|]. split; [reflexivity|]. split; assumption.
    + do 2 io_step B2 Acc. io_ret B2. io_tail H Acc. io_call H.
      eexists 3%Z, _, [_; _; _; _; _; _; _; _; _], choice.
      split; [simpl; auto|]. split; [reflexivity|].
      split; [exact Acc|]. split; [reflexivity|]. split; assumption.
    + do 2 io_step B2 Acc. io_ret B2. io_tail H Acc. io_call H.
      eexists 4%Z, _, [_; _; _; _; _; _; _; _; _], choice.
      split; [simpl; auto|]. split; [reflexivity|].
      split; [exact Acc|]. split; [reflexivity|]. split; assumption.
    + do 2 io_step B2 Acc. io_ret B2. io_tail H Acc. io_call H.
      eexists 5%Z, _, [_; _; _; _; _; _; _; _; _], choice.
      split; [simpl; auto 10|]. split; [reflexivity|].
      split; [exact Acc|]. split; [reflexivity|]. split; assumption.
    + io_ret B2. io_tail H Acc. discriminate.
Qed.

Lemma answered_functional (line : String.string) (d v v' : value) :
  answered line d v -> answered line d v' -> v = v'.
Proof.
  intros [[E ->]|[N Ev]] [[E' ->]|[N' Ev']]; try reflexivity;
    try contradiction. congruence.
Qed.

Lemma ask_run (p line : String.string) (d v : value)
      (rest out : list String.string) :
  answered line d v ->
  ask p d {| Interact.stdin := line :: rest; Interact.stdout := out |}
  = ({| Interact.stdin := rest; Interact.stdout := out ++ [p] |}, inr v).
Proof.
  unfold Interact.ask, Interact.iobind, Interact.input. simpl.
  intros [[-> ->]|[N Ev]].
  - reflexivity.
  - apply String.eqb_neq in N. now rewrite N, Ev.
Qed.

Ltac run_ask A :=
  rewrite (ask_run _ _ _ _ _ _ A); cbv beta iota zeta.

Ltac run_print :=
  unfold Interact.print at 1; cbn [Interact.stdin Interact.stdout];
  cbv beta iota zeta.

(** X30. A choice that no branch handles leaves [constructor] unbound: when
    the value of the second line equals none of 1..5 (as for 6, which the
    menu offers), [ask_orbit] never returns; it still asks the five
    remaining questions and, when they are answered, raises
    [UnboundLocalError] at the call. *)
Theorem X30_ask_orbit_unbound (l1 l2 : String.string) (primary choice : value) :
  answered l1 Kerbin primary ->
  answered l2 (int 1) choice ->
  (forall n, In n [1; 2; 3; 4; 5]%Z -> eq_int choice n = false) ->
  (forall rest out c' r,
      ask_orbit {| Interact.stdin := l1 :: l2 :: rest; Interact.stdout := out |}
      <> (c', inr r)) /\
  (forall l3 l4 l5 l6 l7 v3 v4 v5 v6 v7 rest out,
      answered l3 (int 0) v3 -> answered l4 (int 0) v4 ->
      answered l5 (int 0) v5 -> answered l6 (int 0) v6 ->
      answered l7 (int 0) v7 ->
      exists out',
        ask_orbit {| Interact.stdin := l1 :: l2 :: l3 :: l4 :: l5 :: l6 :: l7 :: rest;
                     Interact.stdout := out |}
        = ({| Interact.stdin := rest; Interact.stdout := out' |},
           inl (Interact.UnboundLocalError exc))).
Proof.
  intros A1 A2 Hn.
  assert (E1 : eq_int choice 1 = false) by (apply Hn; simpl; auto).
  assert (E2 : eq_int choice 2 = false) by (apply Hn; simpl; auto).
  assert (E3 : eq_int choice 3 = false) by (apply Hn; simpl; auto).
  assert (E4 : eq_int choice 4 = false) by (apply Hn; simpl; auto).
  assert (E5 : eq_int choice 5 = false) by (apply Hn; simpl; auto 10).
  split.
  - intros rest out c' r H. unfold Interact.ask_orbit in H.
    remember (l1 :: l2 :: rest) as s0 eqn:Acc.
    assert (Acc' : s0 = Interact.stdin
                          {| Interact.stdin := s0; Interact.stdout := out |})
      by reflexivity.
    do 9 io_step H Acc'. cbv zeta in H.
    rewrite Acc in Acc'. injection Acc' as _ <- _.
    assert (a7 = choice) by (eapply answered_functional; eassumption).
    subst a7.
    apply iobind_inr in H. destruct H as (c9 & st1 & B1 & H).
    apply iobind_inr in H. destruct H as (c10 & st2 & B2 & H).
    unfold Interact.shape_if in B1. rewrite E1 in B1.
    unfold Interact.shape_elif in B2. rewrite E2, E3, E4, E5 in B2.
    unfold Interact.ret in B1, B2.
    injection B1 as <- <-. injection B2 as <- <-.
    repeat (apply iobind_inr in H; destruct H as (? & ? & _ & H)).
    discriminate.
  - intros l3 l4 l5 l6 l7 v3 v4 v5 v6 v7 rest out A3 A4 A5 A6 A7.
    eexists. unfold Interact.ask_orbit, Interact.iobind.
    run_ask A1. do 7 run_print. run_ask A2.
    unfold Interact.shape_if, Interact.shape_elif, Interact.ret.
    rewrite E1, E2, E3, E4, E5. cbv beta iota zeta.
    do 2 run_print. run_ask A3. run_ask A4. run_ask A5. run_print.
    run_ask A6. run_ask A7. reflexivity.
Qed.

End InteractFacts.

Lemma Zeqb_exclusive (v n m : Z) :
  Z.eqb v n = true -> Z.eqb v m = true -> n = m.
Proof. intros H1 H2. apply Z.eqb_eq in H1, H2. congruence. Qed.

(** Enter, then 5, then Enter seven times: [from_period] is called with a
    period of [None] and an apsis of 0. *)
Lemma X29_ask_orbit_call_witness :
  let c := {| Interact.stdin :=
                [String.EmptyString; "5"%string; String.EmptyString;
                 String.EmptyString; String.EmptyString; String.EmptyString;
                 String.EmptyString; String.EmptyString; String.EmptyString];
              Interact.stdout := [] |} in
  exists c' args,
    Interact.ask_orbit Z unit Interact.digit_eval (fun n => n) Z.eqb (-1)%Z 0%Z c
    = (c', inr (Interact.from_period, args)) /\
    exists n shape lines choice,
      In (n, (Interact.from_period, shape)) Interact.branches /\
      map fst args = "primary"%string :: shape ++ Interact.plane_keys /\
      Interact.stdin c = lines ++ Interact.stdin c' /\
      length lines = 9%nat /\
      Interact.answered Z unit Interact.digit_eval
        (nth 1 lines String.EmptyString) 1%Z choice /\
      Z.eqb choice n = true.
Proof.
  intro c. eexists _, _. split; [cbv; reflexivity|].
  apply (X29_ask_orbit_call Z unit Interact.digit_eval (fun n => n) Z.eqb
           (-1)%Z 0%Z Zeqb_exclusive c).
  cbv. reflexivity.
Defined.

(** Enter, then 6, then Enter five times: [UnboundLocalError]. *)
Lemma X30_ask_orbit_unbound_witness :
  exists out',
    Interact.ask_orbit Z unit Interact.digit_eval (fun n => n) Z.eqb (-1)%Z 0%Z
      {| Interact.stdin :=
           [String.EmptyString; "6"%string; String.EmptyString;
            String.EmptyString; String.EmptyString; String.EmptyString;
            String.EmptyString];
         Interact.stdout := [] |}
    = ({| Interact.stdin := []; Interact.stdout := out' |},
       inl (Interact.UnboundLocalError unit)).
Proof.
  assert (D : forall d : Z,
             Interact.answered Z unit Interact.digit_eval String.EmptyString d d)
    by (intro d; left; split; reflexivity).
  assert (A6 : Interact.answered Z unit Interact.digit_eval "6"%string 1%Z 6%Z)
    by (right; split; [discriminate | reflexivity]).
  assert (Hn : forall n, In n [1; 2; 3; 4; 5]%Z -> Z.eqb 6 n = false).
  { intros n H. simpl in H.
    repeat destruct H as [<-|H]; try reflexivity. contradiction. }
  apply (proj2 (X30_ask_orbit_unbound Z unit Interact.digit_eval (fun n => n)
                  Z.eqb (-1)%Z 0%Z String.EmptyString "6"%string 0%Z 6%Z
                  (D 0%Z) A6 Hn)
               String.EmptyString String.EmptyString String.EmptyString
               String.EmptyString String.EmptyString
               0%Z 0%Z 0%Z 0%Z 0%Z [] []); apply D.
Defined.
